(** * Verification registry bot: identity normalisation, store and dispatch

    A shallow embedding of [src/main.py].

    - A Python string is a sequence of Unicode code points; here a string is
      a list of code points, a code point a number.  The whitespace test is
      Python's own: the twenty-nine code points [str.isspace] accepts, on
      which [strip] and [split] work.
    - [str.lower] and [str.upper] are the Unicode case mappings, tables of
      many thousand entries; they come in as a parameter, a [casing].  What a
      proof needs to know of them is a stated law of the mapping
      ([lower_stable], [lower_keeps_spaceless], [ascii_cased]), each one a
      fact of Python's tables; [ascii_casing], which maps the letters A-Z and
      a-z and nothing else, is a casing that has them all.
    - The handlers run in a state-and-exception monad over a [world]: the
      table [verified_users], the outcomes the database holds for the coming
      store operations, the trace of what reached the database, the log, and
      the replies sent.  A failing store operation fails when it connects,
      before its statement runs.
    - A message has a sender, and [bot.reply_to] delivers: failures of the
      chat transport are not part of the model. *)

From Stdlib Require Import List Bool Arith NArith ZArith Lia Ascii String.
Import ListNotations.

(** ** Python strings *)

Module PyStr.

(** A code point. *)
Definition char := N.

Definition str := list char.

(** A character of the source text, and a string literal of the source. *)
Definition ch (a : ascii) : char := N_of_ascii a.
Definition lit (s : string) : str := map ch (list_ascii_of_string s).

Definition between (lo hi c : N) : bool := (N.leb lo c) && (N.leb c hi).

(** [str.isspace] on one character: TAB, LF, VT, FF, CR; the separators FS,
    GS, RS, US; the space; NEL and the no-break space; the Ogham space mark;
    the spaces U+2000 to U+200A; the line and paragraph separators; the
    narrow no-break, the medium mathematical and the ideographic space. *)
Definition isspace (c : char) : bool :=
  between 9 13 c || between 28 32 c
  || N.eqb c 133 || N.eqb c 160 || N.eqb c 5760
  || between 8192 8202 c
  || N.eqb c 8232 || N.eqb c 8233 || N.eqb c 8239 || N.eqb c 8287
  || N.eqb c 12288.

(** [str.lower] and [str.upper]: the case mappings of the Unicode database.
    They work on whole strings: a mapping can change the length, and the
    lower case of a capital sigma depends on what surrounds it. *)
Record casing := Casing {
  lower : str -> str;
  upper : str -> str
}.

Fixpoint drop_while (p : char -> bool) (s : str) : str :=
  match s with
  | [] => []
  | c :: s' => if p c then drop_while p s' else s
  end.

Fixpoint take_while (p : char -> bool) (s : str) : str :=
  match s with
  | [] => []
  | c :: s' => if p c then c :: take_while p s' else []
  end.

(** [s.lstrip()], [s.rstrip()], [s.strip()]. *)
Definition lstrip (s : str) : str := drop_while isspace s.
Definition rstrip (s : str) : str := rev (drop_while isspace (rev s)).
Definition strip (s : str) : str := rstrip (lstrip s).

(** [s.replace(old, new)] for a one-character [old]: every occurrence is
    replaced, left to right. *)
Definition replace (old : char) (new : str) (s : str) : str :=
  flat_map (fun c => if N.eqb c old then new else [c]) s.

Definition notspace (c : char) : bool := negb (isspace c).

(** [s.split(None, maxsplit)] as CPython's [split_whitespace] runs it: skip
    the whitespace, stop at the end of the text, cut one word; once
    [maxsplit] words are cut the rest, without its leading whitespace, is the
    last item. *)
Fixpoint split_n (maxsplit : nat) (s : str) : list str :=
  match drop_while isspace s with
  | [] => []
  | c :: rest =>
      match maxsplit with
      | O => [c :: rest]
      | S k => take_while notspace (c :: rest)
                 :: split_n k (drop_while notspace (c :: rest))
      end
  end.

(** [s.split()]: no bound on the number of cuts; a text of [n] characters
    holds at most [n] words. *)
Definition split (s : str) : list str := split_n (List.length s) s.

(** [s.split(maxsplit=k)]. *)
Definition split_maxsplit (k : nat) (s : str) : list str := split_n k s.

(** [c in chars]. *)
Definition char_in (c : char) (chars : str) : bool :=
  existsb (N.eqb c) chars.

Fixpoint str_eqb (a b : str) : bool :=
  match a, b with
  | [], [] => true
  | x :: a', y :: b' => N.eqb x y && str_eqb a' b'
  | _, _ => false
  end.

Fixpoint starts_with (p s : str) : bool :=
  match p, s with
  | [], _ => true
  | x :: p', y :: s' => N.eqb x y && starts_with p' s'
  | _ :: _, [] => false
  end.

(** [sub in s]. *)
Fixpoint contains (sub s : str) : bool :=
  starts_with sub s ||
  match s with
  | [] => false
  | _ :: s' => contains sub s'
  end.

Definition NL : str := [10%N].

(** The case mappings on the letters A-Z and a-z. *)
Definition lower_ascii (c : char) : char :=
  if between 65 90 c then (c + 32)%N else c.

Definition upper_ascii (c : char) : char :=
  if between 97 122 c then (c - 32)%N else c.

(** A text of code points below 128. *)
Definition ascii_text (s : str) : Prop := forall c, In c s -> (c < 128)%N.
Definition ascii_textb (s : str) : bool := forallb (fun c => N.ltb c 128) s.

(** A text of whitespace only; a text without any whitespace. *)
Definition blank (s : str) : Prop := forall c, In c s -> isspace c = true.
Definition spaceless (s : str) : Prop := forall c, In c s -> isspace c = false.

End PyStr.
Import PyStr.

Definition AT : char := ch "@".

(** ** Laws of the case mappings *)

(** Lower-casing yields characters that lower-casing leaves alone, wherever
    they stand; the at-sign is one of them. *)
Definition lower_stable (P : casing) : Prop :=
  exists stable : char -> bool,
    stable AT = true /\
    (forall s c, In c (lower P s) -> stable c = true) /\
    (forall s, (forall c, In c s -> stable c = true) -> lower P s = s).

(** Lower-casing makes no whitespace out of other characters. *)
Definition lower_keeps_spaceless (P : casing) : Prop :=
  forall s, spaceless s -> spaceless (lower P s).

(** On a text of code points below 128 the mappings are those of the letters
    A-Z and a-z. *)
Definition ascii_cased (P : casing) : Prop :=
  forall s, ascii_text s ->
            lower P s = map lower_ascii s /\ upper P s = map upper_ascii s.

(** The casing that maps the letters A-Z and a-z and nothing else. *)
Definition ascii_casing : casing := Casing (map lower_ascii) (map upper_ascii).

(** ** The world a handler runs in *)

(** A row of the table [verified_users]. *)
Record row := Row { col_username : str; col_service : str }.

(** What the database does with the next store operation: serve it, or fail
    with the text of the exception psycopg2 raises. *)
Inductive db_outcome :=
| DbOk
| DbFail (e : str).

Inductive statement :=
| Select (k1 k2 k3 k4 : str)
| Upsert (u s : str)
| Delete (u : str).

(** What reaches the database: a connection attempt, a statement run. *)
Inductive db_event :=
| Connect
| Execute (q : statement).

Record user := User { id : Z; user_username : option str }.

#[local] Unset Elimination Schemes.
Inductive message :=
| Message (from_user : user) (text : str) (reply_to_message : option message).
#[local] Set Elimination Schemes.

Definition from_user (m : message) : user :=
  match m with Message u _ _ => u end.
Definition text (m : message) : str :=
  match m with Message _ t _ => t end.
Definition reply_to_message (m : message) : option message :=
  match m with Message _ _ r => r end.

(** One call of [bot.reply_to]. *)
Record reply := Reply { to : message; body : str; parse_mode : option str }.

Record world := World {
  table : list row;             (* verified_users, in scan order *)
  db_faults : list db_outcome;  (* outcomes of the coming store operations *)
  db_trace : list db_event;     (* what has reached the database *)
  log : list str;               (* logger.error lines *)
  outbox : list reply           (* replies sent *)
}.

(** ** Computations: state and exceptions *)

Inductive outcome (A : Type) :=
| Return (a : A)
| Raise (e : str).
Arguments Return {A} a.
Arguments Raise {A} e.

Definition Py (A : Type) := world -> outcome A * world.

Definition ret {A} (a : A) : Py A := fun w => (Return a, w).

Definition raise {A} (e : str) : Py A := fun w => (Raise e, w).

Definition bind {A B} (m : Py A) (k : A -> Py B) : Py B :=
  fun w => match m w with
           | (Return a, w') => k a w'
           | (Raise e, w') => (Raise e, w')
           end.

(** [try: body except Exception as e: handler(e)]. *)
Definition try_except {A} (body : Py A) (handler : str -> Py A) : Py A :=
  fun w => match body w with
           | (Return a, w') => (Return a, w')
           | (Raise e, w') => handler e w'
           end.

Declare Scope py_scope.
Delimit Scope py_scope with py.
Notation "x <- m ;; k" := (bind m (fun x => k))
  (at level 100, m at next level, right associativity) : py_scope.
Notation "m ;;; k" := (bind m (fun _ => k))
  (at level 100, right associativity) : py_scope.
Open Scope py_scope.

Definition exec {A} (m : Py A) (w : world) : world := snd (m w).
Definition result {A} (m : Py A) (w : world) : outcome A := fst (m w).

(** The world with one more log line, with one more reply sent. *)
Definition logged (line : str) (w : world) : world :=
  World (table w) (db_faults w) (db_trace w) (log w ++ [line]) (outbox w).

Definition sent (r : reply) (w : world) : world :=
  World (table w) (db_faults w) (db_trace w) (log w) (outbox w ++ [r]).

(** The failure, if any, the database holds for the next store operation. *)
Definition next_fault (w : world) : option str :=
  match db_faults w with
  | DbFail e :: _ => Some e
  | _ => None
  end.

(** The world after a store operation whose connection failed and was
    logged as [line]; the world after one that ran [q] and left [t]. *)
Definition refused (line : str) (w : world) : world :=
  World (table w) (tl (db_faults w)) (db_trace w ++ [Connect])
        (log w ++ [line]) (outbox w).

Definition served (q : statement) (t : list row) (w : world) : world :=
  World t (tl (db_faults w)) (db_trace w ++ [Connect; Execute q])
        (log w) (outbox w).

Definition logger_error (line : str) : Py unit :=
  fun w => (Return tt, logged line w).

Definition reply_to (m : message) (t : str) (mode : option str) : Py unit :=
  fun w => (Return tt, sent (Reply m t mode) w).

(** [l[i]]. *)
Definition getitem {A} (l : list A) (i : nat) : Py A :=
  match nth_error l i with
  | Some x => ret x
  | None => raise (lit "list index out of range")
  end.

(** ** Database *)

Definition row_matches (keys : list str) (r : row) : bool :=
  existsb (str_eqb (col_username r)) keys.

(** [INSERT ... ON CONFLICT (username) DO UPDATE SET service = EXCLUDED.service]. *)
Fixpoint upsert_row (u s : str) (t : list row) : list row :=
  match t with
  | [] => [Row u s]
  | r :: t' => if str_eqb (col_username r) u then Row u s :: t'
               else r :: upsert_row u s t'
  end.

(** [DELETE FROM verified_users WHERE username = u]. *)
Definition delete_rows (u : str) (t : list row) : list row :=
  filter (fun r => negb (str_eqb (col_username r) u)) t.

(** [get_db_connection]: the attempt is recorded and the next outcome of the
    database is consumed; a failure raises. *)
Definition get_db_connection : Py unit :=
  fun w =>
    let w' fs := World (table w) fs (db_trace w ++ [Connect]) (log w) (outbox w) in
    match db_faults w with
    | [] => (Return tt, w' [])
    | DbOk :: fs => (Return tt, w' fs)
    | DbFail e :: fs => (Raise e, w' fs)
    end.

(** [cur.execute(q)] followed by [cur.fetchone()] or [conn.commit()]: the
    statement is recorded and takes effect; a SELECT yields the first row of
    its result. *)
Definition execute (q : statement) : Py (option row) :=
  fun w =>
    let w' t := World t (db_faults w) (db_trace w ++ [Execute q]) (log w) (outbox w) in
    match q with
    | Select k1 k2 k3 k4 =>
        (Return (find (row_matches [k1; k2; k3; k4]) (table w)), w' (table w))
    | Upsert u s => (Return None, w' (upsert_row u s (table w)))
    | Delete u => (Return None, w' (delete_rows u (table w)))
    end.

(** * The code *)

Section Code.

(** Python's case mappings. *)
Variable P : casing.

(** ** Identity normaliser *)

(** [format_username]: lower-case, trim, delete every at-sign, put one in
    front. *)
Definition format_username (username : str) : str :=
  let username := replace AT [] (strip (lower P username)) in
  lit "@" ++ username.

(** The normaliser as the specification words it: lower-case, trim, drop one
    leading at-sign when there is one, put one in front. *)
Definition strip_leading_at (s : str) : str :=
  match s with
  | c :: s' => if N.eqb c AT then s' else s
  | [] => []
  end.

Definition normalize_spec (raw : str) : str :=
  lit "@" ++ strip_leading_at (strip (lower P raw)).

(** The text ends in a whitespace character. *)
Definition ends_with_space (s : str) : bool :=
  match rev s with
  | c :: _ => isspace c
  | [] => false
  end.

(** ** Store layer *)

Definition UNDERSCORE : char := ch "_".

Definition lookup_keys (formatted_username : str) : statement :=
  Select formatted_username (lower P formatted_username)
         (replace UNDERSCORE [] formatted_username)
         (replace UNDERSCORE (lit "-") formatted_username).

Definition get_verified_user (username : str) : Py (option row) :=
  let formatted_username := format_username username in
  try_except
    (get_db_connection ;;;
     result <- execute (lookup_keys formatted_username) ;;
     match result with
     | Some r => ret (Some (Row (col_username r) (col_service r)))
     | None => ret None
     end)
    (fun e => logger_error (lit "Database error: " ++ e) ;;; ret None).

Definition save_verified_user (username service : str) : Py unit :=
  let formatted_username := format_username username in
  try_except
    (get_db_connection ;;;
     execute (Upsert formatted_username service) ;;;
     ret tt)
    (fun e => logger_error (lit "Error saving user: " ++ e)).

Definition remove_verified_user (username : str) : Py unit :=
  let formatted_username := format_username username in
  try_except
    (get_db_connection ;;;
     execute (Delete formatted_username) ;;;
     ret tt)
    (fun e => logger_error (lit "Error removing user: " ++ e)).

(** ** Reply formatting *)

Definition special_chars : str := lit "_*[]()~`>#+-=|{}.!".

Definition BACKSLASH : char := ch "\".

Definition escape_markdown (text : str) : str :=
  flat_map (fun char => if char_in char special_chars
                        then [BACKSLASH; char] else [char]) text.

(** The four pictographs of the templates: the green and the red circle, the
    speech balloon, and the warning sign with its variation selector. *)
Definition GREEN_CIRCLE : str := [128994%N].
Definition RED_CIRCLE : str := [128308%N].
Definition SPEECH_BALLOON : str := [128172%N].
Definition WARNING_SIGN : str := [9888%N; 65039%N].

Definition escrow_links : str :=
  lit "[Scrizon](https://t\.me/scrizon) \| [Cupid](https://t\.me/cupid)".

Definition verified_response (display_name service : str) : str :=
  lit "*" ++ GREEN_CIRCLE ++ lit " " ++ escape_markdown display_name
    ++ lit " is verified for:*" ++ NL ++ NL
    ++ escape_markdown service ++ NL ++ NL
    ++ lit "*" ++ SPEECH_BALLOON ++ lit " We still recommend using escrow:*" ++ NL
    ++ escrow_links.

Definition not_verified_response (display_name : str) : str :=
  lit "*" ++ RED_CIRCLE ++ lit " " ++ escape_markdown display_name
    ++ lit " is not verified\!*" ++ NL ++ NL
    ++ lit "*" ++ WARNING_SIGN ++ lit " We highly recommend using escrow:*" ++ NL
    ++ escrow_links.

Definition check_usage : str :=
  lit "Usage:" ++ NL ++ lit "1. Reply to a message with /check" ++ NL
    ++ lit "2. Or use: /check username".

(** The chat platform reads a MarkdownV2 text from left to right: a
    backslash before a character with a code from 1 to 126 makes that
    character an ordinary one; a special character that is not so escaped is
    markup.  [live_markup] lists the characters of a text that are read as
    markup. *)
Fixpoint live_markup (s : str) : list char :=
  match s with
  | [] => []
  | c :: s' =>
      if N.eqb c BACKSLASH then
        match s' with
        | d :: s'' => if between 1 126 d then live_markup s'' else live_markup s'
        | [] => []
        end
      else if char_in c special_chars then c :: live_markup s'
      else live_markup s'
  end.

(** ** Authorization gate *)

Section Dispatcher.

(** The owner's identifier, read from the environment at start-up. *)
Variable OWNER_ID : Z.

Definition authorized_users : list Z := [OWNER_ID].

Definition is_authorized (u : user) : bool :=
  existsb (Z.eqb (id u)) authorized_users.

(** ** Command handlers *)

(** [message.reply_to_message and message.reply_to_message.from_user.username]:
    the user name of the message replied to, when there is one and it is not
    empty. *)
Definition replied_username (m : message) : option str :=
  match reply_to_message m with
  | None => None
  | Some r =>
      match user_username (from_user r) with
      | None => None
      | Some [] => None
      | Some u => Some u
      end
  end.

(** The part of [check_verification] that follows the choice of the user
    name: look it up, format the reply, send it. *)
Definition check_found (message : message) (username : str) : Py unit :=
  user_data <- get_verified_user username ;;
  let display_name := upper P (format_username username) in
  let response :=
    match user_data with
    | Some r => verified_response display_name (upper P (col_service r))
    | None => not_verified_response display_name
    end in
  reply_to message response (Some (lit "MarkdownV2")).

Definition check_verification (message : message) : Py unit :=
  try_except
    (if 1 <? List.length (split (text message)) then
       word <- getitem (split (text message)) 1 ;;
       check_found message (strip word)
     else
       match replied_username message with
       | Some username => check_found message username
       | None => reply_to message check_usage None
       end)
    (fun e => logger_error (lit "Error in check_verification: " ++ e)).

Definition not_authorized : str :=
  lit "You are not authorized to use this command.".

Definition add_verified (message : message) : Py unit :=
  try_except
    (if negb (is_authorized (from_user message)) then
       reply_to message not_authorized None
     else
       let args := split_maxsplit 2 (text message) in
       if negb (List.length args =? 3) then
         reply_to message (lit "Usage: /add username - Service") None
       else
         arg1 <- getitem args 1 ;;
         let username := format_username arg1 in
         service <- getitem args 2 ;;
         save_verified_user username service ;;;
         reply_to message
           (username ++ lit " has been added as verified for " ++ service ++ lit ".")
           None)
    (fun e => logger_error (lit "Error in add_verified: " ++ e)).

Definition remove_verified (message : message) : Py unit :=
  try_except
    (if negb (is_authorized (from_user message)) then
       reply_to message not_authorized None
     else if negb (List.length (split (text message)) =? 2) then
       reply_to message (lit "Usage: /remove username") None
     else
       username <- getitem (split (text message)) 1 ;;
       found <- get_verified_user username ;;
       match found with
       | Some _ =>
           remove_verified_user username ;;;
           reply_to message
             (username ++ lit " has been removed from verified users.") None
       | None =>
           reply_to message (username ++ lit " is not a verified user.") None
       end)
    (fun e => logger_error (lit "Error in remove_verified: " ++ e)).

Definition ping_command (message : message) : Py unit :=
  reply_to message (lit "Pong! Bot is working!") None.

End Dispatcher.

(** ** The registered handlers *)

(** The commands [bot.message_handler] registers a handler for. *)
Inductive command := Check | Add | Remove | Ping.

Definition handler (OWNER_ID : Z) (c : command) : message -> Py unit :=
  match c with
  | Check => check_verification
  | Add => add_verified OWNER_ID
  | Remove => remove_verified OWNER_ID
  | Ping => ping_command
  end.

(** ** Predicates on keys *)

(** A key the normaliser maps to itself. *)
Definition normal_form (k : str) : Prop := format_username k = k.

Definition stored_normalised (t : list row) : Prop :=
  Forall (fun r => normal_form (col_username r)) t.

(** The four forms a lookup of the normalised key [f] matches. *)
Definition lookup_forms (f : str) : list str :=
  [f; lower P f; replace UNDERSCORE [] f; replace UNDERSCORE (lit "-") f].

(** Every row a lookup of [f] can match carries the key [f] itself. *)
Definition exact_matches_only (f : str) (t : list row) : Prop :=
  forall r, In r t -> In (col_username r) (lookup_forms f) -> col_username r = f.

(** What a handler may do to the table: nothing, one upsert under the twice
    normalised form of a word, or one delete. *)
Definition table_change (t t' : list row) : Prop :=
  t' = t \/
  (exists u s, spaceless u /\
               t' = upsert_row (format_username (format_username u)) s t) \/
  (exists k, t' = delete_rows k t).

End Code.

(** ** Frame conditions *)

(** Between [w] and [w'] one reply was sent and nothing else happened: the
    table, the pending database outcomes, the database trace and the log are
    the same. *)
Definition only_replied (r : reply) (w w' : world) : Prop :=
  table w' = table w /\
  db_faults w' = db_faults w /\
  db_trace w' = db_trace w /\
  log w' = log w /\
  outbox w' = outbox w ++ [r].

(** ** Predicates on the registry and on texts *)

Definition usernames (t : list row) : list str := map col_username t.

(** No two rows share a user name. *)
Definition distinct_usernames (t : list row) : Prop := NoDup (usernames t).

(** The rows of a table under one key. *)
Definition rows_of (k : str) (t : list row) : list row :=
  filter (fun r => str_eqb (col_username r) k) t.

Definition SPACE : char := ch " ".
Definition STAR : char := ch "*".

(** The number of characters of [value] that [escape_markdown] escapes. *)
Definition count_special (value : str) : nat :=
  List.length (filter (fun c => char_in c special_chars) value).

(** Reading an escaped text back: a backslash that stands before a special
    character is dropped. *)
Fixpoint unescape (s : str) : str :=
  match s with
  | [] => []
  | c :: s' =>
      match s' with
      | d :: s'' =>
          if N.eqb c BACKSLASH && char_in d special_chars
          then d :: unescape s''
          else c :: unescape s'
      | [] => [c]
      end
  end.

(** The database serves the next [n] store operations. *)
Definition serves (n : nat) (fs : list db_outcome) : Prop :=
  forall e, ~ In (DbFail e) (firstn n fs).

Definition healthy (n : nat) (w : world) : Prop := serves n (db_faults w).

(** ** Sample data *)

Definition show (s : str) : string := string_of_list_ascii (map ascii_of_N s).

Definition empty_world : world := World [] [] [] [] [].

Definition owner7 : user := User 7 None.
Definition guest9 : user := User 9 (Some (lit "guest")).

Definition add_bob : message :=
  Message owner7 (lit "/add @bob EscrowService") None.
Definition check_bob : message :=
  Message guest9 (lit "/check bob") None.
Definition remove_foo_bar : message :=
  Message owner7 (lit "/remove @foo_bar") None.
Definition bare_check : message :=
  Message guest9 (lit "/check") None.

(** A database that refuses the next connection. *)
Definition down_world : world :=
  World [] [DbFail (lit "connection refused")] [] [] [].

(** A registry holding the handle without its underscore. *)
Definition foobar_world : world :=
  World [Row (lit "@foobar") (lit "Escrow")] [] [] [] [].

(** * Properties *)

Section Properties.

(** Python's case mappings and the laws of them the proofs call on. *)
Variable P : casing.
Hypothesis stable_P : lower_stable P.
Hypothesis spaceless_P : lower_keeps_spaceless P.
Hypothesis ascii_P : ascii_cased P.

(** ** Strings *)

Lemma str_eqb_eq a : forall b, str_eqb a b = true <-> a = b.
Proof.
  induction a as [|x a IH]; intros [|y b]; simpl; split; intro H;
    try reflexivity; try discriminate.
  - apply andb_true_iff in H as [Hx Hab].
    apply N.eqb_eq in Hx. apply IH in Hab. congruence.
  - injection H as -> ->. rewrite N.eqb_refl. simpl. now apply IH.
Qed.

Lemma str_eqb_refl a : str_eqb a a = true.
Proof. now apply str_eqb_eq. Qed.

Lemma str_eqb_neq a b : str_eqb a b = false <-> a <> b.
Proof.
  split.
  - intros H E. apply str_eqb_eq in E. congruence.
  - intro Hne. destruct (str_eqb a b) eqn:E; [|reflexivity].
    apply str_eqb_eq in E. contradiction.
Qed.

(** Deleting a character is filtering it out. *)
Lemma replace_nil_filter a s :
  replace a [] s = filter (fun c => negb (N.eqb c a)) s.
Proof.
  induction s as [|c s IH]; simpl; [reflexivity|].
  destruct (N.eqb c a); simpl; [exact IH | f_equal; exact IH].
Qed.

Lemma replace_nil_not_in a s : ~ In a (replace a [] s).
Proof.
  rewrite replace_nil_filter. intro H. apply filter_In in H as [_ H].
  now rewrite N.eqb_refl in H.
Qed.

Lemma replace_nil_fixed a s : replace a [] s = s <-> ~ In a s.
Proof.
  split.
  - intros E H. rewrite <- E in H. exact (replace_nil_not_in _ _ H).
  - induction s as [|c s IH]; simpl; intro H; [reflexivity|].
    destruct (N.eqb c a) eqn:E.
    + apply N.eqb_eq in E. subst. exfalso. apply H. now left.
    + simpl. f_equal. apply IH. intro Hin. apply H. now right.
Qed.

Lemma drop_while_snoc p s a :
  p a = false -> drop_while p (s ++ [a]) = drop_while p s ++ [a].
Proof.
  intro Ha. induction s as [|c s IH]; simpl.
  - now rewrite Ha.
  - destruct (p c); [exact IH | reflexivity].
Qed.

Lemma drop_while_incl p s c : In c (drop_while p s) -> In c s.
Proof.
  induction s as [|x s IH]; simpl; [tauto|].
  destruct (p x); simpl; intro H; [right; now apply IH | exact H].
Qed.

Lemma drop_while_length p s : List.length (drop_while p s) <= List.length s.
Proof.
  induction s as [|x s IH]; simpl; [lia|]. destruct (p x); simpl; lia.
Qed.

Lemma rstrip_incl s c : In c (rstrip s) -> In c s.
Proof.
  unfold rstrip. intro H. apply in_rev in H. apply drop_while_incl in H.
  now apply in_rev.
Qed.

Lemma rstrip_cons_notspace a s :
  isspace a = false -> rstrip (a :: s) = a :: rstrip s.
Proof.
  intro Ha. unfold rstrip. simpl.
  rewrite (drop_while_snoc _ _ _ Ha), rev_app_distr. reflexivity.
Qed.

(** Trimming on the right changes a text exactly when it ends in
    whitespace. *)
Lemma rstrip_fixed s : rstrip s = s <-> ends_with_space s = false.
Proof.
  unfold rstrip, ends_with_space.
  destruct (rev s) as [|c r] eqn:E.
  - assert (s = []) as ->.
    { rewrite <- (rev_involutive s), E. reflexivity. }
    simpl. tauto.
  - simpl. destruct (isspace c) eqn:Hc.
    + split; [|discriminate]. intro H. exfalso.
      assert (L : List.length (rev (drop_while isspace r)) = List.length s)
        by now rewrite H.
      rewrite length_rev in L.
      assert (Ls : List.length s = S (List.length r)).
      { rewrite <- (length_rev s), E. reflexivity. }
      pose proof (drop_while_length isspace r). lia.
    + split; [reflexivity|]. intros _.
      rewrite <- E. apply rev_involutive.
Qed.

(** *** Splitting into words *)

Lemma split_n_S n s :
  split_n (S n) s =
  match drop_while isspace s with
  | [] => []
  | c :: rest =>
      take_while notspace (c :: rest)
        :: split_n n (drop_while notspace (c :: rest))
  end.
Proof. reflexivity. Qed.

Lemma drop_while_head p s c rest :
  drop_while p s = c :: rest -> p c = false.
Proof.
  induction s as [|x s IH]; simpl; [discriminate|].
  destruct (p x) eqn:E; [exact IH|]. now intros [= <- _].
Qed.

Lemma take_while_all p s c : In c (take_while p s) -> p c = true.
Proof.
  induction s as [|x s IH]; simpl; [tauto|].
  destruct (p x) eqn:E; simpl; [|tauto]. intros [<- | H]; auto.
Qed.

(** The bound on the number of cuts that [split] runs with is enough: any
    larger one gives the same words. *)
Lemma split_fuel n : forall m s,
  List.length s <= n -> List.length s <= m -> split_n n s = split_n m s.
Proof.
  induction n as [|n IH]; intros m s Hn Hm.
  - destruct s; [|simpl in Hn; lia]. now destruct m.
  - destruct m as [|m].
    + destruct s; [reflexivity | simpl in Hm; lia].
    + rewrite !split_n_S.
      destruct (drop_while isspace s) as [|c rest] eqn:E; [reflexivity|].
      pose proof (drop_while_length isspace s) as L1. rewrite E in L1.
      pose proof (drop_while_head _ _ _ _ E) as Hc.
      assert (L2 : List.length (drop_while notspace (c :: rest))
                   <= List.length rest).
      { simpl. unfold notspace at 1. rewrite Hc. simpl.
        apply drop_while_length. }
      simpl in L1. f_equal. apply IH; lia.
Qed.

(** Every word cut before the bound is reached is free of whitespace. *)
Lemma split_n_word_no_space n : forall s i word,
  i < n -> nth_error (split_n n s) i = Some word ->
  forall c, In c word -> isspace c = false.
Proof.
  induction n as [|n IH]; intros s i word Hi Hword c Hc; [lia|].
  rewrite split_n_S in Hword.
  destruct (drop_while isspace s) as [|x rest]; [destruct i; discriminate|].
  destruct i as [|i].
  - injection Hword as <-.
    change (In c (take_while notspace (x :: rest))) in Hc.
    apply take_while_all in Hc.
    unfold notspace in Hc. now destruct (isspace c).
  - apply (IH (drop_while notspace (x :: rest)) i word);
      [lia | exact Hword | exact Hc].
Qed.

(** ** Identity normaliser *)

Lemma format_username_unfold raw :
  format_username P raw = AT :: replace AT [] (strip (lower P raw)).
Proof. reflexivity. Qed.

Lemma in_strip c s : In c (strip s) -> In c s.
Proof.
  unfold strip, lstrip. intro H. apply rstrip_incl in H.
  now apply drop_while_incl in H.
Qed.

Lemma in_replace_nil a c s : In c (replace a [] s) -> In c s.
Proof. rewrite replace_nil_filter. intro H. now apply filter_In in H. Qed.

(** A text made of the at-sign and of characters of a lower-cased text is
    its own lower case. *)
Lemma lower_of_lowered x z :
  (forall c, In c z -> c = AT \/ In c (lower P x)) -> lower P z = z.
Proof.
  destruct stable_P as (stable & Hat & Hout & Hfix).
  intro H. apply Hfix. intros c Hc.
  destruct (H c Hc) as [-> | Hin]; [exact Hat | exact (Hout x c Hin)].
Qed.

Lemma lower_format_username u :
  lower P (format_username P u) = format_username P u.
Proof.
  apply (lower_of_lowered u). rewrite format_username_unfold.
  intros c [<- | Hc]; [now left | right].
  now apply in_replace_nil, in_strip in Hc.
Qed.

Lemma lower_idem s : lower P (lower P s) = lower P s.
Proof. apply (lower_of_lowered s). intros c Hc. now right. Qed.

(** Normalising a normalised handle trims it on the right and does nothing
    else. *)
Lemma format_username_twice x :
  format_username P (format_username P x) = rstrip (format_username P x).
Proof.
  rewrite (format_username_unfold (format_username P x)).
  rewrite lower_format_username, (format_username_unfold x).
  set (z := replace AT [] (strip (lower P x))).
  assert (Hs : strip (AT :: z) = AT :: rstrip z).
  { unfold strip. change (lstrip (AT :: z)) with (AT :: z).
    now apply rstrip_cons_notspace. }
  rewrite Hs, (rstrip_cons_notspace AT z) by reflexivity.
  f_equal.
  change (replace AT [] (AT :: rstrip z)) with (replace AT [] (rstrip z)).
  apply replace_nil_fixed. intro H. apply rstrip_incl in H.
  exact (replace_nil_not_in _ _ H).
Qed.

Lemma ends_with_space_in s :
  ends_with_space s = true -> exists c, In c s /\ isspace c = true.
Proof.
  unfold ends_with_space. destruct (rev s) as [|c r] eqn:E; [discriminate|].
  intro H. exists c. split; [|exact H].
  apply in_rev. rewrite E. now left.
Qed.

Lemma format_username_no_space x :
  spaceless x -> spaceless (format_username P x).
Proof.
  intros Hx c [<- | H]; [reflexivity|].
  apply in_replace_nil, in_strip in H. exact (spaceless_P x Hx c H).
Qed.

Lemma format_username_idem_iff x :
  format_username P (format_username P x) = format_username P x
  <-> ends_with_space (format_username P x) = false.
Proof. rewrite format_username_twice. apply rstrip_fixed. Qed.

Lemma format_username_idem_no_space x :
  spaceless x ->
  format_username P (format_username P x) = format_username P x.
Proof.
  intro Hx. apply format_username_idem_iff.
  destruct (ends_with_space (format_username P x)) eqn:E; [|reflexivity].
  apply ends_with_space_in in E as (c & Hin & Hc).
  rewrite (format_username_no_space x Hx c Hin) in Hc. discriminate.
Qed.

(** The handles the handlers cut out of a command text are words, so the
    second normalisation the store layer applies to them changes nothing. *)
Lemma format_username_word_idem k text i u :
  i < k -> nth_error (split_maxsplit k text) i = Some u ->
  format_username P (format_username P u) = format_username P u.
Proof.
  intros Hi Hu. apply format_username_idem_no_space.
  exact (split_n_word_no_space k text i u Hi Hu).
Qed.

Lemma split_word_spaceless text i u :
  nth_error (split text) i = Some u -> spaceless u.
Proof.
  unfold split.
  rewrite (split_fuel (List.length text) (List.length text + S i) text) by lia.
  intro H.
  refine (split_n_word_no_space (List.length text + S i) text i u _ H). lia.
Qed.

Lemma format_username_split_idem text i u :
  nth_error (split text) i = Some u ->
  format_username P (format_username P u) = format_username P u.
Proof.
  intro H. apply format_username_idem_no_space.
  exact (split_word_spaceless text i u H).
Qed.

(** *** The mappings on texts of code points below 128 *)

Lemma lower_ascii_text s : ascii_text s -> lower P s = map lower_ascii s.
Proof. intro H. now destruct (ascii_P s H). Qed.

Lemma upper_ascii_text s : ascii_text s -> upper P s = map upper_ascii s.
Proof. intro H. now destruct (ascii_P s H). Qed.

Lemma ascii_textb_ok s : ascii_textb s = true -> ascii_text s.
Proof.
  unfold ascii_textb. intros H c Hc.
  rewrite forallb_forall in H. now apply N.ltb_lt, H.
Qed.

Lemma format_username_ascii s :
  ascii_textb s = true ->
  format_username P s = format_username ascii_casing s.
Proof.
  intro H. unfold format_username.
  now rewrite (lower_ascii_text s (ascii_textb_ok s H)).
Qed.

Lemma upper_ascii_casing s :
  ascii_textb s = true -> upper P s = upper ascii_casing s.
Proof. intro H. exact (upper_ascii_text s (ascii_textb_ok s H)). Qed.

Lemma lower_ascii_casing s :
  ascii_textb s = true -> lower P s = lower ascii_casing s.
Proof. intro H. exact (lower_ascii_text s (ascii_textb_ok s H)). Qed.

Lemma lower_ascii_below c : (c < 128)%N -> (lower_ascii c < 128)%N.
Proof.
  unfold lower_ascii, between. intro H.
  destruct (N.leb_spec 65 c); destruct (N.leb_spec c 90); simpl; lia.
Qed.

Lemma format_username_ascii_text s :
  ascii_textb s = true -> ascii_textb (format_username ascii_casing s) = true.
Proof.
  intro H. apply forallb_forall. intros c Hc. apply N.ltb_lt.
  destruct Hc as [<- | Hc]; [reflexivity|].
  apply in_replace_nil, in_strip in Hc. cbn [lower ascii_casing] in Hc.
  apply in_map_iff in Hc as (c' & <- & Hc').
  apply lower_ascii_below. exact (ascii_textb_ok s H c' Hc').
Qed.

(** C4, as the specification words it, fails: an at-sign inside the handle
    is deleted too, where the specified algorithm keeps it. *)
Lemma format_username_drops_inner_at :
  format_username ascii_casing (lit "a@b") = lit "@ab" /\
  normalize_spec ascii_casing (lit "a@b") = lit "@a@b" /\
  format_username ascii_casing (lit "a@b") <> normalize_spec ascii_casing (lit "a@b").
Proof. repeat split; try reflexivity. discriminate. Qed.

(** The same under every case mapping that is the ASCII one on ASCII text,
    Python's among them. *)
Lemma format_username_drops_inner_at_any :
  format_username P (lit "a@b") = lit "@ab" /\
  normalize_spec P (lit "a@b") = lit "@a@b".
Proof.
  unfold normalize_spec. rewrite format_username_ascii by reflexivity.
  rewrite (lower_ascii_casing (lit "a@b")) by reflexivity.
  split; reflexivity.
Qed.

(** C4, amended: [format_username] lower-cases, trims, deletes every at-sign
    and puts one in front, so its result has no at-sign after the first
    character; it is the specified "drop one leading at-sign" normaliser
    exactly on the inputs whose trimmed text has no at-sign after its first
    character. *)
Theorem format_username_vs_spec (raw : str) :
  format_username P raw
    = AT :: filter (fun c => negb (N.eqb c AT)) (strip (lower P raw)) /\
  ~ In AT (tl (format_username P raw)) /\
  (format_username P raw = normalize_spec P raw
     <-> ~ In AT (tl (strip (lower P raw)))).
Proof.
  split; [|split].
  - rewrite format_username_unfold. now rewrite replace_nil_filter.
  - rewrite format_username_unfold. simpl. apply replace_nil_not_in.
  - rewrite format_username_unfold. unfold normalize_spec.
    change (lit "@" ++ ?s) with (AT :: s).
    destruct (strip (lower P raw)) as [|c t]; simpl; [tauto|].
    destruct (N.eqb c AT) eqn:E; simpl.
    + rewrite <- (replace_nil_fixed AT t). split; congruence.
    + rewrite <- (replace_nil_fixed AT t). split; congruence.
Qed.


(** The same under every case mapping that is the ASCII one on ASCII text,
    Python's among them. *)
Lemma format_username_not_idempotent_any :
  format_username P (lit "a @") = lit "@a " /\
  format_username P (format_username P (lit "a @")) = lit "@a".
Proof.
  assert (E : format_username P (lit "a @") = lit "@a ")
    by (rewrite format_username_ascii; reflexivity).
  split; [exact E|]. rewrite E.
  rewrite format_username_ascii; reflexivity.
Qed.


(** ** Store layer *)

Lemma row_matches_In keys r :
  row_matches keys r = true <-> In (col_username r) keys.
Proof.
  unfold row_matches. rewrite existsb_exists. split.
  - intros (k & Hk & E). apply str_eqb_eq in E. now subst.
  - intro H. exists (col_username r). split; [exact H | apply str_eqb_refl].
Qed.

Lemma find_first {A} (p : A -> bool) (l : list A) (x : A) :
  find p l = Some x ->
  exists before after,
    l = before ++ x :: after /\ p x = true /\
    forall y, In y before -> p y = false.
Proof.
  induction l as [|a l IH]; simpl; [discriminate|].
  destruct (p a) eqn:Ha.
  - intros [= <-]. exists [], l. repeat split; [exact Ha | intros y []].
  - intro H. destruct (IH H) as (b & c & -> & Hx & Hb).
    exists (a :: b), c. repeat split; [exact Hx|].
    intros y [<- | Hy]; [exact Ha | now apply Hb].
Qed.

Lemma find_snoc {A} (p : A -> bool) (l : list A) (x : A) :
  (forall y, In y l -> p y = false) -> p x = true ->
  find p (l ++ [x]) = Some x.
Proof.
  intros Hl Hx. induction l as [|a l IH]; simpl.
  - now rewrite Hx.
  - rewrite (Hl a) by now left. apply IH. intros y Hy. apply Hl. now right.
Qed.

Lemma upsert_row_fresh u s t :
  (forall r, In r t -> col_username r <> u) ->
  upsert_row u s t = t ++ [Row u s].
Proof.
  induction t as [|r t IH]; simpl; intro H; [reflexivity|].
  destruct (str_eqb (col_username r) u) eqn:E.
  - apply str_eqb_eq in E. exfalso. apply (H r); [now left | exact E].
  - f_equal. apply IH. intros x Hx. apply H. now right.
Qed.

Lemma delete_rows_absent u t :
  (forall r, In r t -> col_username r <> u) -> delete_rows u t = t.
Proof.
  induction t as [|r t IH]; simpl; intro H; [reflexivity|].
  destruct (str_eqb (col_username r) u) eqn:E; simpl.
  - apply str_eqb_eq in E. exfalso. apply (H r); [now left | exact E].
  - f_equal. apply IH. intros x Hx. apply H. now right.
Qed.

Lemma eta_row (o : option row) :
  match o with
  | Some r => Some (Row (col_username r) (col_service r))
  | None => None
  end = o.
Proof. destruct o as [[]|]; reflexivity. Qed.

Ltac run_store w :=
  unfold try_except, bind, get_db_connection, execute, logger_error, ret,
    next_fault, refused, served, logged;
  destruct w as [t fs tr lg ob]; simpl;
  destruct fs as [|[|e] fs]; simpl; rewrite <- ?app_assoc; simpl;
  rewrite ?eta_row; try reflexivity.

Lemma get_verified_user_run u w :
  let f := format_username P u in
  get_verified_user P u w =
  match next_fault w with
  | Some e => (Return None, refused (lit "Database error: " ++ e) w)
  | None =>
      (Return (find (row_matches (lookup_forms P f)) (table w)),
       served (lookup_keys P f) (table w) w)
  end.
Proof.
  unfold get_verified_user, lookup_keys, lookup_forms.
  generalize (format_username P u). intro f.
  generalize (lower P f) (replace UNDERSCORE [] f)
             (replace UNDERSCORE (lit "-") f).
  intros f0 f1 f2. run_store w;
    destruct (find (row_matches [f; f0; f1; f2]) t) as [[]|]; reflexivity.
Qed.

(** The second form of the lookup is the normalised handle again. *)
Lemma lookup_forms_again f0 :
  lookup_forms P (format_username P f0) =
  [format_username P f0; format_username P f0;
   replace UNDERSCORE [] (format_username P f0);
   replace UNDERSCORE (lit "-") (format_username P f0)].
Proof. unfold lookup_forms. now rewrite lower_format_username. Qed.

Lemma lookup_keys_again f0 :
  lookup_keys P (format_username P f0) =
  Select (format_username P f0) (format_username P f0)
         (replace UNDERSCORE [] (format_username P f0))
         (replace UNDERSCORE (lit "-") (format_username P f0)).
Proof. unfold lookup_keys. now rewrite lower_format_username. Qed.

Lemma save_verified_user_run u s w :
  save_verified_user P u s w =
  match next_fault w with
  | Some e => (Return tt, refused (lit "Error saving user: " ++ e) w)
  | None =>
      (Return tt,
       served (Upsert (format_username P u) s)
              (upsert_row (format_username P u) s (table w)) w)
  end.
Proof.
  unfold save_verified_user. generalize (format_username P u). intro f.
  run_store w.
Qed.

Lemma remove_verified_user_run u w :
  remove_verified_user P u w =
  match next_fault w with
  | Some e => (Return tt, refused (lit "Error removing user: " ++ e) w)
  | None =>
      (Return tt,
       served (Delete (format_username P u))
              (delete_rows (format_username P u) (table w)) w)
  end.
Proof.
  unfold remove_verified_user. generalize (format_username P u). intro f.
  run_store w.
Qed.

(** On a handle of code points below 128 the store layer is that of the
    casing of the letters A-Z and a-z. *)
Lemma get_verified_user_ascii u w :
  ascii_textb u = true ->
  get_verified_user P u w = get_verified_user ascii_casing u w.
Proof.
  intro H. unfold get_verified_user, lookup_keys.
  rewrite (format_username_ascii u H).
  now rewrite (lower_ascii_casing _ (format_username_ascii_text u H)).
Qed.

Lemma save_verified_user_ascii u s w :
  ascii_textb u = true ->
  save_verified_user P u s w = save_verified_user ascii_casing u s w.
Proof. intro H. unfold save_verified_user. now rewrite (format_username_ascii u H). Qed.

Lemma remove_verified_user_ascii u w :
  ascii_textb u = true ->
  remove_verified_user P u w = remove_verified_user ascii_casing u w.
Proof. intro H. unfold remove_verified_user. now rewrite (format_username_ascii u H). Qed.

(** ** Authorization gate *)

Lemma is_authorized_iff OWNER u : is_authorized OWNER u = true <-> id u = OWNER.
Proof.
  unfold is_authorized, authorized_users. simpl.
  rewrite orb_false_r. apply Z.eqb_eq.
Qed.

Lemma is_authorized_owner OWNER u : id u = OWNER -> is_authorized OWNER u = true.
Proof. apply is_authorized_iff. Qed.

Lemma is_authorized_other OWNER u : id u <> OWNER -> is_authorized OWNER u = false.
Proof.
  intro H. destruct (is_authorized OWNER u) eqn:E; [|reflexivity].
  apply is_authorized_iff in E. contradiction.
Qed.

Lemma only_replied_sent r w : only_replied r w (sent r w).
Proof. unfold only_replied, sent. simpl. tauto. Qed.

(** ** Command handlers *)

Lemma add_verified_refused OWNER m w :
  id (from_user m) <> OWNER ->
  add_verified P OWNER m w = (Return tt, sent (Reply m not_authorized None) w).
Proof.
  intro H. unfold add_verified, try_except.
  rewrite (is_authorized_other _ _ H). reflexivity.
Qed.

Lemma remove_verified_refused OWNER m w :
  id (from_user m) <> OWNER ->
  remove_verified P OWNER m w = (Return tt, sent (Reply m not_authorized None) w).
Proof.
  intro H. unfold remove_verified, try_except.
  rewrite (is_authorized_other _ _ H). reflexivity.
Qed.

(** C1: an [/add] or a [/remove] whose sender is not the owner is answered
    with the fixed not-authorized reply and nothing else happens: no
    statement reaches the database and the table is the same. *)
Theorem non_owner_is_refused (OWNER : Z) (m : message) (w : world) :
  id (from_user m) <> OWNER ->
  result (add_verified P OWNER m) w = Return tt /\
  only_replied (Reply m not_authorized None) w (exec (add_verified P OWNER m) w) /\
  result (remove_verified P OWNER m) w = Return tt /\
  only_replied (Reply m not_authorized None) w (exec (remove_verified P OWNER m) w).
Proof.
  intro H. unfold result, exec.
  rewrite (add_verified_refused _ _ w H), (remove_verified_refused _ _ w H).
  simpl. repeat split.
Qed.

(** C8: a [/check] with no argument that is not a reply to a message of a
    named user gets the usage hint, and no store operation is made: nothing
    reaches the database and the table is the same. *)
Theorem check_without_target (m : message) (w : world) :
  List.length (split (text m)) <= 1 ->
  replied_username m = None ->
  result (check_verification P m) w = Return tt /\
  only_replied (Reply m check_usage None) w (exec (check_verification P m) w).
Proof.
  intros Hlen Hreply. unfold result, exec, check_verification, try_except.
  apply Nat.ltb_ge in Hlen. rewrite Hlen, Hreply.
  simpl. repeat split.
Qed.

Lemma add_verified_owner_run OWNER m w cmd u s :
  id (from_user m) = OWNER ->
  split_maxsplit 2 (text m) = [cmd; u; s] ->
  add_verified P OWNER m w =
  (Return tt,
   sent (Reply m (format_username P u ++ lit " has been added as verified for "
                    ++ s ++ lit ".") None)
        (exec (save_verified_user P (format_username P u) s) w)).
Proof.
  intros Hid Hargs. unfold add_verified, try_except, exec.
  rewrite (is_authorized_owner _ _ Hid), Hargs.
  cbn [negb List.length Nat.eqb getitem nth_error]. unfold bind, ret.
  rewrite save_verified_user_run.
  destruct (next_fault w); reflexivity.
Qed.

Lemma remove_verified_owner_run OWNER m w cmd u found w1 :
  id (from_user m) = OWNER ->
  split (text m) = [cmd; u] ->
  get_verified_user P u w = (Return found, w1) ->
  remove_verified P OWNER m w =
  (Return tt,
   match found with
   | Some _ =>
       sent (Reply m (u ++ lit " has been removed from verified users.") None)
            (exec (remove_verified_user P u) w1)
   | None => sent (Reply m (u ++ lit " is not a verified user.") None) w1
   end).
Proof.
  intros Hid Hargs Hlookup. unfold remove_verified, try_except, exec.
  rewrite (is_authorized_owner _ _ Hid), Hargs.
  cbn [negb List.length Nat.eqb getitem nth_error]. unfold bind, ret.
  rewrite Hlookup. destruct found as [r|]; [|reflexivity].
  rewrite remove_verified_user_run.
  destruct (next_fault w1); reflexivity.
Qed.

Lemma check_verification_arg_run m w word found w1 :
  nth_error (split (text m)) 1 = Some word ->
  get_verified_user P (strip word) w = (Return found, w1) ->
  check_verification P m w =
  (Return tt,
   sent (Reply m
           match found with
           | Some r =>
               verified_response (upper P (format_username P (strip word)))
                                 (upper P (col_service r))
           | None =>
               not_verified_response (upper P (format_username P (strip word)))
           end
           (Some (lit "MarkdownV2")))
        w1).
Proof.
  intros Hword Hlookup. unfold check_verification, try_except, getitem.
  assert (Hlen : (1 <? List.length (split (text m))) = true).
  { apply Nat.ltb_lt. apply nth_error_Some. rewrite Hword. discriminate. }
  rewrite Hlen, Hword. unfold check_found, bind, ret.
  rewrite Hlookup. reflexivity.
Qed.

Lemma check_verification_reply_run m w u found w1 :
  List.length (split (text m)) <= 1 ->
  replied_username m = Some u ->
  get_verified_user P u w = (Return found, w1) ->
  check_verification P m w =
  (Return tt,
   sent (Reply m
           match found with
           | Some r =>
               verified_response (upper P (format_username P u))
                                 (upper P (col_service r))
           | None => not_verified_response (upper P (format_username P u))
           end
           (Some (lit "MarkdownV2")))
        w1).
Proof.
  intros Hlen Hreply Hlookup. unfold check_verification, try_except.
  apply Nat.ltb_ge in Hlen. rewrite Hlen, Hreply.
  unfold check_found, bind, ret. rewrite Hlookup. reflexivity.
Qed.

(** C7: for a [/remove] of the owner with one argument the lookup comes
    first; when it yields nothing the reply says the handle is not a verified
    user and the world is the one the lookup left, no delete made; when it
    yields a row the delete of the normalised handle is made and the reply
    confirms the removal. *)
Theorem remove_verified_by_owner
    (OWNER : Z) (m : message) (w : world) (cmd u : str)
    (found : option row) (w1 : world) :
  id (from_user m) = OWNER ->
  split (text m) = [cmd; u] ->
  get_verified_user P u w = (Return found, w1) ->
  (exists rest, db_trace w1 = db_trace w ++ Connect :: rest) /\
  match found with
  | None =>
      remove_verified P OWNER m w =
        (Return tt, sent (Reply m (u ++ lit " is not a verified user.") None) w1) /\
      table w1 = table w
  | Some _ =>
      let w2 := exec (remove_verified_user P u) w1 in
      remove_verified P OWNER m w =
        (Return tt,
         sent (Reply m (u ++ lit " has been removed from verified users.") None)
              w2) /\
      match next_fault w1 with
      | None =>
          db_trace w2
            = db_trace w1 ++ [Connect; Execute (Delete (format_username P u))] /\
          table w2 = delete_rows (format_username P u) (table w)
      | Some e =>
          db_trace w2 = db_trace w1 ++ [Connect] /\ table w2 = table w /\
          log w2 = log w1 ++ [lit "Error removing user: " ++ e]
      end
  end.
Proof.
  intros Hid Hargs Hlookup.
  pose proof (remove_verified_owner_run OWNER m w cmd u found w1
                Hid Hargs Hlookup) as Hrun.
  assert (Ht : table w1 = table w /\
               exists rest, db_trace w1 = db_trace w ++ Connect :: rest).
  { rewrite get_verified_user_run in Hlookup.
    destruct (next_fault w); injection Hlookup as _ <-; simpl; eauto. }
  destruct Ht as [Ht Htrace]. split; [exact Htrace|].
  destruct found as [r|]; [|split; assumption].
  cbv zeta. split; [exact Hrun|].
  unfold exec. rewrite remove_verified_user_run.
  destruct (next_fault w1); simpl; rewrite ?Ht; repeat split.
Qed.

(** C2, as stated, fails: with the database down, the owner's [/add] logs the
    failure, writes nothing, and still sends the success confirmation. *)
Lemma failed_add_still_confirms :
  let w := exec (add_verified ascii_casing 7 add_bob) down_world in
  table w = [] /\
  log w = [lit "Error saving user: connection refused"] /\
  map body (outbox w)
    = [lit "@bob has been added as verified for EscrowService."].
Proof. repeat split. Qed.

(** C2, amended: a failed store operation is logged by the store layer and
    changes no row, and the handler then replies as if the read had found
    nothing or the write had gone through: a failed write during [/add] is
    followed by the success confirmation, a failed read during [/check],
    of an argument or of the user name replied to, by the not-verified
    reply, a failed read during [/remove] by the
    not-a-verified-user reply, and a failed delete by the removal
    confirmation. *)
Theorem store_failure_is_swallowed (OWNER : Z) (w : world) (e : str) :
  next_fault w = Some e ->
  (forall m cmd u s,
      id (from_user m) = OWNER ->
      split_maxsplit 2 (text m) = [cmd; u; s] ->
      add_verified P OWNER m w =
        (Return tt,
         sent (Reply m (format_username P u
                          ++ lit " has been added as verified for "
                          ++ s ++ lit ".") None)
              (refused (lit "Error saving user: " ++ e) w))) /\
  (forall m word,
      nth_error (split (text m)) 1 = Some word ->
      check_verification P m w =
        (Return tt,
         sent (Reply m (not_verified_response
                          (upper P (format_username P (strip word))))
                     (Some (lit "MarkdownV2")))
              (refused (lit "Database error: " ++ e) w))) /\
  (forall m u,
      List.length (split (text m)) <= 1 ->
      replied_username m = Some u ->
      check_verification P m w =
        (Return tt,
         sent (Reply m (not_verified_response (upper P (format_username P u)))
                     (Some (lit "MarkdownV2")))
              (refused (lit "Database error: " ++ e) w))) /\
  (forall m cmd u,
      id (from_user m) = OWNER ->
      split (text m) = [cmd; u] ->
      remove_verified P OWNER m w =
        (Return tt,
         sent (Reply m (u ++ lit " is not a verified user.") None)
              (refused (lit "Database error: " ++ e) w))) /\
  (forall w0 m cmd u r,
      id (from_user m) = OWNER ->
      split (text m) = [cmd; u] ->
      get_verified_user P u w0 = (Return (Some r), w) ->
      remove_verified P OWNER m w0 =
        (Return tt,
         sent (Reply m (u ++ lit " has been removed from verified users.") None)
              (refused (lit "Error removing user: " ++ e) w))) /\
  (forall line, table (refused line w) = table w).
Proof.
  intro Hfault. repeat split.
  - intros m cmd u s Hid Hargs.
    rewrite (add_verified_owner_run OWNER m w cmd u s Hid Hargs).
    unfold exec. now rewrite save_verified_user_run, Hfault.
  - intros m word Hword.
    rewrite (check_verification_arg_run m w word None
               (refused (lit "Database error: " ++ e) w) Hword); [reflexivity|].
    now rewrite get_verified_user_run, Hfault.
  - intros m u Hlen Hreply.
    rewrite (check_verification_reply_run m w u None
               (refused (lit "Database error: " ++ e) w) Hlen Hreply);
      [reflexivity|].
    now rewrite get_verified_user_run, Hfault.
  - intros m cmd u Hid Hargs.
    rewrite (remove_verified_owner_run OWNER m w cmd u None
               (refused (lit "Database error: " ++ e) w) Hid Hargs);
      [reflexivity|].
    now rewrite get_verified_user_run, Hfault.
  - intros w0 m cmd u r Hid Hargs Hlookup.
    rewrite (remove_verified_owner_run OWNER m w0 cmd u (Some r) w
               Hid Hargs Hlookup).
    unfold exec. now rewrite remove_verified_user_run, Hfault.
Qed.

(** C6: the lookup never raises and never touches the table; when the
    database serves it, the one query it makes names the normalised handle,
    the normalised handle again, the handle without underscores and the
    handle with hyphens for underscores, and its result is the first row of
    the table whose user name is one of the four, or none when no row has
    one; when the database fails, the result is none as well. *)
Theorem get_verified_user_lookup (u : str) (w : world) :
  let f := format_username P u in
  let forms := [f; f; replace UNDERSCORE [] f; replace UNDERSCORE (lit "-") f] in
  exists found w',
    get_verified_user P u w = (Return found, w') /\
    table w' = table w /\
    match next_fault w with
    | None =>
        db_trace w' = db_trace w ++
          [Connect;
           Execute (Select f f (replace UNDERSCORE [] f)
                           (replace UNDERSCORE (lit "-") f))]
    | Some e =>
        found = None /\ db_trace w' = db_trace w ++ [Connect]
    end /\
    match found with
    | Some r =>
        exists before after,
          table w = before ++ r :: after /\
          In (col_username r) forms /\
          forall x, In x before -> ~ In (col_username x) forms
    | None =>
        next_fault w = None ->
        forall x, In x (table w) -> ~ In (col_username x) forms
    end.
Proof.
  intros f forms. pose proof (get_verified_user_run u w) as Hrun.
  cbv zeta in Hrun. rewrite lookup_forms_again, lookup_keys_again in Hrun.
  fold f in Hrun. fold forms in Hrun.
  destruct (next_fault w) as [e|] eqn:Hfault.
  - eexists None, _. split; [exact Hrun|].
    split; [reflexivity|]. split; [split; reflexivity|]. discriminate.
  - eexists _, _. split; [exact Hrun|].
    split; [reflexivity|]. split; [reflexivity|].
    destruct (find (row_matches forms) (table w)) as [r|] eqn:Hfind.
    + destruct (find_first _ _ _ Hfind) as (b & a & Ht & Hr & Hb).
      exists b, a. split; [exact Ht|]. split; [now apply row_matches_In|].
      intros x Hx Hin. apply row_matches_In in Hin.
      rewrite (Hb x Hx) in Hin. discriminate.
    + intros _ x Hx Hin. apply row_matches_In in Hin.
      pose proof (find_none _ _ Hfind x Hx) as Hn.
      rewrite Hin in Hn. discriminate.
Qed.

(** ** Reply formatting *)

Lemma escape_markdown_cons c value :
  escape_markdown (c :: value) =
  (if char_in c special_chars then [BACKSLASH; c] else [c])
    ++ escape_markdown value.
Proof. reflexivity. Qed.

Lemma special_not_backslash c :
  char_in c special_chars = true -> N.eqb c BACKSLASH = false.
Proof.
  intro H. destruct (N.eqb c BACKSLASH) eqn:E; [|reflexivity].
  apply N.eqb_eq in E. subst. discriminate.
Qed.

(** The characters [escape_markdown] escapes are the eighteen of
    [_ * [ ] ( ) ~ ` > # + - = | { } . !] and no other. *)
Lemma special_chars_are c :
  char_in c special_chars = true <->
  In c [ch "_"; ch "*"; ch "["; ch "]"; ch "("; ch ")"; ch "~"; ch "`";
        ch ">"; ch "#"; ch "+"; ch "-"; ch "="; ch "|"; ch "{"; ch "}";
        ch "."; ch "!"].
Proof.
  unfold char_in. rewrite existsb_exists. split.
  - intros (x & Hx & E). apply N.eqb_eq in E. now subst.
  - intro H. exists c. split; [exact H | apply N.eqb_refl].
Qed.

Lemma special_code c : char_in c special_chars = true -> between 1 126 c = true.
Proof.
  intro H. apply special_chars_are in H.
  repeat (destruct H as [<- | H]; [reflexivity|]). destruct H.
Qed.

(** In an escaped value every special character stands right after a
    backslash. *)
Lemma special_follows_backslash value : forall i c,
  nth_error (escape_markdown value) i = Some c ->
  char_in c special_chars = true ->
  exists j, i = S j /\ nth_error (escape_markdown value) j = Some BACKSLASH.
Proof.
  induction value as [|x value IH]; intros i c Hi Hc.
  - destruct i; discriminate.
  - rewrite escape_markdown_cons in Hi |- *.
    destruct (char_in x special_chars) eqn:Hx.
    + destruct i as [|[|i]]; simpl in Hi.
      * injection Hi as <-. discriminate.
      * exists 0. split; reflexivity.
      * destruct (IH i c Hi Hc) as (j & -> & Hj).
        exists (S (S j)). split; [reflexivity | exact Hj].
    + destruct i as [|i]; simpl in Hi.
      * injection Hi as <-. congruence.
      * destruct (IH i c Hi Hc) as (j & -> & Hj).
        exists (S j). split; [reflexivity | exact Hj].
Qed.

(** A value without a backslash is escaped for good: the platform reads no
    character of it as markup. *)
Lemma escape_markdown_no_markup value :
  ~ In BACKSLASH value -> live_markup (escape_markdown value) = [].
Proof.
  induction value as [|x value IH]; intro Hb; [reflexivity|].
  assert (Hx : N.eqb x BACKSLASH = false).
  { apply N.eqb_neq. intro E. apply Hb. now left. }
  assert (Hrest : live_markup (escape_markdown value) = []).
  { apply IH. intro H. apply Hb. now right. }
  rewrite escape_markdown_cons.
  destruct (char_in x special_chars) eqn:Hs.
  - cbn [app live_markup].
    rewrite N.eqb_refl, (special_code x Hs). exact Hrest.
  - cbn [app live_markup]. rewrite Hx, Hs. exact Hrest.
Qed.

(** C9 fails on a value that holds a backslash: [escape_markdown] escapes the
    eighteen special characters and passes the backslash through, so in the
    escaped text of the display name [@\*] the backslash of the value
    escapes the backslash the code put before the star, and the star is read
    as markup; that text is what [/check \*] hands to [bot.reply_to]. *)
Theorem escape_markdown_leaves_star_live :
  char_in BACKSLASH special_chars = false /\
  escape_markdown (lit "@\*") = lit "@\\*" /\
  live_markup (escape_markdown (lit "@\*")) = [STAR] /\
  map body
      (outbox (exec (check_verification ascii_casing
                       (Message guest9 (lit "/check \*") None))
                    empty_world))
  = [lit "*" ++ RED_CIRCLE ++ lit " @\\* is not verified\!*" ++ NL ++ NL
       ++ lit "*" ++ WARNING_SIGN
       ++ lit " We highly recommend using escrow:*" ++ NL
       ++ escrow_links].
Proof. repeat split. Qed.

(** ** End to end *)

(** C3, as stated, fails: the reply to [/check bob] carries the service in
    upper case, so the text [EscrowService] is not in it. *)
Lemma check_reply_has_service_in_upper_case :
  let w1 := exec (add_verified ascii_casing 7 add_bob) empty_world in
  let w2 := exec (check_verification ascii_casing check_bob) w1 in
  table w1 = [Row (lit "@bob") (lit "EscrowService")] /\
  exists t,
    outbox w2 = outbox w1 ++ [Reply check_bob t (Some (lit "MarkdownV2"))] /\
    contains (lit "EscrowService") t = false.
Proof.
  split; [reflexivity|]. eexists. split; reflexivity.
Qed.

(** C3, amended: with the database up and no row for [@bob], the owner's
    [/add @bob EscrowService] adds exactly the row [@bob], [EscrowService],
    and a following [/check bob] gets a reply that has the service in upper
    case, [ESCROWSERVICE], and the word [verified] in it (and not the text
    [EscrowService]). *)
Theorem add_then_check_bob (OWNER : Z) (w : world) (m_add m_check : message) :
  id (from_user m_add) = OWNER ->
  text m_add = lit "/add @bob EscrowService" ->
  text m_check = lit "/check bob" ->
  db_faults w = [] ->
  (forall r, In r (table w) -> col_username r <> lit "@bob") ->
  let w1 := exec (add_verified P OWNER m_add) w in
  let w2 := exec (check_verification P m_check) w1 in
  table w1 = table w ++ [Row (lit "@bob") (lit "EscrowService")] /\
  exists t,
    outbox w2 = outbox w1 ++ [Reply m_check t (Some (lit "MarkdownV2"))] /\
    contains (lit "ESCROWSERVICE") t = true /\
    contains (lit "verified") t = true /\
    contains (lit "not verified") t = false /\
    contains (lit "EscrowService") t = false.
Proof.
  intros Hid Hadd Hcheck Hup Hfresh w1 w2.
  assert (E1 : format_username P (lit "@bob") = lit "@bob")
    by (rewrite format_username_ascii; reflexivity).
  assert (E2 : format_username P (lit "bob") = lit "@bob")
    by (rewrite format_username_ascii; reflexivity).
  assert (E3 : upper P (lit "@bob") = lit "@BOB")
    by (rewrite upper_ascii_casing; reflexivity).
  assert (E4 : upper P (lit "EscrowService") = lit "ESCROWSERVICE")
    by (rewrite upper_ascii_casing; reflexivity).
  assert (E5 : lower P (lit "@bob") = lit "@bob")
    by (rewrite lower_ascii_casing; reflexivity).
  assert (Hw1 : w1 = sent (Reply m_add
                             (lit "@bob has been added as verified for EscrowService.")
                             None)
                          (served (Upsert (lit "@bob") (lit "EscrowService"))
                                  (table w ++ [Row (lit "@bob") (lit "EscrowService")])
                                  w)).
  { unfold w1, exec at 1.
    rewrite (add_verified_owner_run OWNER m_add w (lit "/add") (lit "@bob")
               (lit "EscrowService") Hid) by (rewrite Hadd; reflexivity).
    unfold exec. rewrite save_verified_user_run.
    unfold next_fault. rewrite Hup, !E1.
    rewrite (upsert_row_fresh _ _ _ Hfresh). reflexivity. }
  split; [rewrite Hw1; reflexivity|].
  assert (Hlookup : get_verified_user P (strip (lit "bob")) w1 =
                    (Return (Some (Row (lit "@bob") (lit "EscrowService"))),
                     served (Select (lit "@bob") (lit "@bob") (lit "@bob") (lit "@bob"))
                            (table w1) w1)).
  { rewrite get_verified_user_run. cbv zeta.
    change (strip (lit "bob")) with (lit "bob"). rewrite E2.
    unfold lookup_forms, lookup_keys. rewrite E5.
    change (replace UNDERSCORE [] (lit "@bob")) with (lit "@bob").
    change (replace UNDERSCORE (lit "-") (lit "@bob")) with (lit "@bob").
    assert (Hnf : next_fault w1 = None).
    { rewrite Hw1. unfold next_fault. simpl. now rewrite Hup. }
    rewrite Hnf. f_equal. f_equal.
    rewrite Hw1. cbn [table sent served].
    apply find_snoc; [|reflexivity].
    intros y Hy. unfold row_matches. cbn [existsb].
    assert (E : str_eqb (col_username y) (lit "@bob") = false)
      by (apply str_eqb_neq; now apply Hfresh).
    now rewrite E. }
  eexists. split.
  - unfold w2, exec at 1.
    rewrite (check_verification_arg_run m_check w1 (lit "bob") _ _
               ltac:(rewrite Hcheck; reflexivity) Hlookup).
    reflexivity.
  - cbn [col_service]. change (strip (lit "bob")) with (lit "bob").
    rewrite E2, E3, E4. repeat split; vm_compute; reflexivity.
Qed.

(** C10: the owner's [/remove @foo_bar] on a registry that holds [@foobar]
    is answered with the removal confirmation although the row the lookup
    matched, through the form without underscores, is still there: the
    delete names [@foo_bar] only. *)
Theorem remove_confirms_but_keeps_row (OWNER : Z) :
  exists (w : world) (m : message) (r : row),
    id (from_user m) = OWNER /\
    text m = lit "/remove @foo_bar" /\
    In r (table w) /\
    col_username r = lit "@foobar" /\
    result (get_verified_user P (lit "@foo_bar")) w = Return (Some r) /\
    let w' := exec (remove_verified P OWNER m) w in
    outbox w' = outbox w ++
      [Reply m (lit "@foo_bar has been removed from verified users.") None] /\
    db_trace w' =
      [Connect;
       Execute (Select (lit "@foo_bar") (lit "@foo_bar") (lit "@foobar")
                       (lit "@foo-bar"));
       Connect;
       Execute (Delete (lit "@foo_bar"))] /\
    table w' = table w /\
    In r (table w').
Proof.
  set (m := Message (User OWNER None) (lit "/remove @foo_bar") None).
  exists foobar_world, m, (Row (lit "@foobar") (lit "Escrow")).
  split; [reflexivity|]. split; [reflexivity|].
  split; [now left|]. split; [reflexivity|].
  assert (Hlookup : get_verified_user P (lit "@foo_bar") foobar_world =
                    (Return (Some (Row (lit "@foobar") (lit "Escrow"))),
                     exec (get_verified_user ascii_casing (lit "@foo_bar"))
                          foobar_world)).
  { rewrite get_verified_user_ascii; reflexivity. }
  split; [unfold result; now rewrite Hlookup|].
  pose proof (remove_verified_owner_run OWNER m foobar_world (lit "/remove")
                (lit "@foo_bar") _ _ eq_refl eq_refl Hlookup) as Hrun.
  unfold exec at 1 in Hrun.
  rewrite remove_verified_user_ascii in Hrun by reflexivity.
  cbv zeta. unfold exec. rewrite Hrun.
  repeat split. now left.
Qed.

(** * Further properties of the code *)

Lemma drop_while_app p a b :
  drop_while p (a ++ b) =
  if forallb p a then drop_while p b else drop_while p a ++ b.
Proof.
  induction a as [|c a IH]; simpl; [reflexivity|].
  destruct (p c); simpl; [exact IH | reflexivity].
Qed.

Lemma blank_forallb s : blank s -> forallb isspace s = true.
Proof. intro H. apply forallb_forall. exact H. Qed.

Lemma blank_rev s : blank s -> blank (rev s).
Proof. intros H c Hc. apply H. now apply in_rev. Qed.

Lemma lstrip_blank_app pre s : blank pre -> lstrip (pre ++ s) = lstrip s.
Proof.
  intro H. unfold lstrip. now rewrite drop_while_app, (blank_forallb pre H).
Qed.

Lemma rstrip_app_blank s post : blank post -> rstrip (s ++ post) = rstrip s.
Proof.
  intro H. unfold rstrip.
  now rewrite rev_app_distr, drop_while_app,
    (blank_forallb (rev post) (blank_rev post H)).
Qed.

Lemma strip_padded pre s post :
  blank pre -> blank post -> strip (pre ++ s ++ post) = strip s.
Proof.
  intros Hpre Hpost. unfold strip. rewrite (lstrip_blank_app pre _ Hpre).
  unfold lstrip. rewrite drop_while_app.
  destruct (forallb isspace s) eqn:E.
  - assert (Hs : drop_while isspace s = []).
    { rewrite <- (app_nil_r s), drop_while_app, E. reflexivity. }
    rewrite Hs.
    assert (Hp : drop_while isspace post = []).
    { rewrite <- (app_nil_r post), drop_while_app, (blank_forallb post Hpost).
      reflexivity. }
    now rewrite Hp.
  - now apply rstrip_app_blank.
Qed.

Lemma strip_spaceless s : spaceless s -> strip s = s.
Proof.
  intro H. unfold strip.
  assert (Hl : lstrip s = s).
  { destruct s as [|c s]; [reflexivity|]. unfold lstrip. simpl.
    now rewrite (H c (or_introl eq_refl)). }
  rewrite Hl. apply rstrip_fixed.
  destruct (ends_with_space s) eqn:E; [|reflexivity].
  apply ends_with_space_in in E as (c & Hc & Hs).
  rewrite (H c Hc) in Hs. discriminate.
Qed.

Lemma spaceless_app a b : spaceless a -> spaceless b -> spaceless (a ++ b).
Proof. intros Ha Hb c Hc. apply in_app_or in Hc as [H | H]; auto. Qed.

Lemma spaceless_cons c s :
  isspace c = false -> spaceless s -> spaceless (c :: s).
Proof. intros Hc Hs x [<- | Hx]; auto. Qed.

(** ** Escaping: length and injectivity *)

Lemma escape_markdown_head value d rest :
  escape_markdown value = d :: rest -> char_in d special_chars = false.
Proof.
  destruct value as [|x value]; [discriminate|].
  rewrite escape_markdown_cons.
  destruct (char_in x special_chars) eqn:Hx; simpl.
  - now intros [= <- _].
  - intros [= <- _]. exact Hx.
Qed.

Lemma unescape_escape_markdown value : unescape (escape_markdown value) = value.
Proof.
  induction value as [|x value IH]; [reflexivity|].
  rewrite escape_markdown_cons.
  destruct (char_in x special_chars) eqn:Hx.
  - change ([BACKSLASH; x] ++ escape_markdown value)
      with (BACKSLASH :: x :: escape_markdown value).
    cbn [unescape]. rewrite N.eqb_refl, Hx. cbn [andb].
    now rewrite IH.
  - change ([x] ++ escape_markdown value) with (x :: escape_markdown value).
    destruct (escape_markdown value) as [|d rest] eqn:E.
    + destruct value as [|y value]; [reflexivity|].
      rewrite escape_markdown_cons in E.
      destruct (char_in y special_chars); discriminate.
    + cbn [unescape]. rewrite (escape_markdown_head value d rest E).
      rewrite andb_false_r. f_equal. exact IH.
Qed.

(** X2: escaping loses nothing: two values with the same escaped text are
    the same value. *)
Theorem escape_markdown_injective (v1 v2 : str) :
  escape_markdown v1 = escape_markdown v2 -> v1 = v2.
Proof.
  intro H. rewrite <- (unescape_escape_markdown v1), H.
  apply unescape_escape_markdown.
Qed.

(** X3: the escaped text is longer than the value by one backslash for each
    special character in it, so a value is left as it is exactly when it has
    no special character. *)
Theorem escape_markdown_length (value : str) :
  List.length (escape_markdown value) = List.length value + count_special value /\
  (escape_markdown value = value <-> count_special value = 0).
Proof.
  assert (Hlen : forall v, List.length (escape_markdown v)
                           = List.length v + count_special v).
  { induction v as [|x v IH]; [reflexivity|].
    rewrite escape_markdown_cons, length_app, IH. unfold count_special.
    cbn [filter]. destruct (char_in x special_chars); simpl; lia. }
  split; [apply Hlen|]. split.
  - intro E. pose proof (Hlen value) as L. rewrite E in L. lia.
  - unfold count_special. induction value as [|x v IH]; [reflexivity|].
    rewrite escape_markdown_cons. cbn [filter].
    destruct (char_in x special_chars); [discriminate|].
    intro H. simpl. f_equal. now apply IH.
Qed.

(** ** The table under upserts and deletes *)

Lemma healthy_next n w : healthy (S n) w -> next_fault w = None.
Proof.
  unfold healthy, serves, next_fault. intro H.
  destruct (db_faults w) as [|[|e] fs]; try reflexivity.
  exfalso. apply (H e). now left.
Qed.

Lemma serves_tl n fs : serves (S n) fs -> serves n (tl fs).
Proof.
  unfold serves. intros H e Hin. destruct fs as [|o fs]; simpl in *.
  - now destruct n.
  - apply (H e). now right.
Qed.

Lemma healthy_served n q t w : healthy (S n) w -> healthy n (served q t w).
Proof. unfold healthy. simpl. apply serves_tl. Qed.

Lemma healthy_sent n r w : healthy n w -> healthy n (sent r w).
Proof. unfold healthy. simpl. tauto. Qed.

Lemma upsert_row_In u s t r :
  In r (upsert_row u s t) -> r = Row u s \/ In r t.
Proof.
  induction t as [|x t IH]; simpl.
  - intros [<- | []]. now left.
  - destruct (str_eqb (col_username x) u).
    + intros [<- | H]; [now left | right; now right].
    + intros [<- | H]; [right; now left|].
      destruct (IH H) as [-> | Hin]; [now left | right; now right].
Qed.

Lemma upsert_row_has u s t : In (Row u s) (upsert_row u s t).
Proof.
  induction t as [|x t IH]; simpl; [now left|].
  destruct (str_eqb (col_username x) u); [now left | now right].
Qed.

Lemma upsert_row_keeps_others u s t r :
  In r t -> col_username r <> u -> In r (upsert_row u s t).
Proof.
  induction t as [|x t IH]; simpl; [tauto|].
  intros [<- | H] Hne.
  - apply str_eqb_neq in Hne. rewrite Hne. now left.
  - destruct (str_eqb (col_username x) u); right; auto.
Qed.

Lemma usernames_upsert_row u s t :
  usernames (upsert_row u s t) =
  if existsb (fun r => str_eqb (col_username r) u) t
  then usernames t else usernames t ++ [u].
Proof.
  induction t as [|x t IH]; simpl; [reflexivity|].
  destruct (str_eqb (col_username x) u) eqn:E; simpl.
  - apply str_eqb_eq in E. now rewrite E.
  - rewrite IH. now destruct (existsb _ t).
Qed.

Lemma upsert_row_twice u s1 s2 t :
  upsert_row u s2 (upsert_row u s1 t) = upsert_row u s2 t.
Proof.
  induction t as [|x t IH]; simpl.
  - now rewrite str_eqb_refl.
  - destruct (str_eqb (col_username x) u) eqn:E; simpl.
    + now rewrite str_eqb_refl.
    + rewrite E. now rewrite IH.
Qed.

Lemma find_key_upsert_row u s t :
  find (fun r => str_eqb (col_username r) u) (upsert_row u s t) = Some (Row u s).
Proof.
  induction t as [|x t IH]; simpl.
  - now rewrite str_eqb_refl.
  - destruct (str_eqb (col_username x) u) eqn:E; simpl.
    + now rewrite str_eqb_refl.
    + now rewrite E.
Qed.

Lemma find_ext_in {A} (p q : A -> bool) l :
  (forall x, In x l -> p x = q x) -> find p l = find q l.
Proof.
  induction l as [|a l IH]; simpl; intro H; [reflexivity|].
  rewrite (H a) by now left. destruct (q a); [reflexivity|].
  apply IH. intros x Hx. apply H. now right.
Qed.

Lemma delete_rows_In u t r :
  In r (delete_rows u t) <-> In r t /\ col_username r <> u.
Proof.
  unfold delete_rows. rewrite filter_In, negb_true_iff, str_eqb_neq. tauto.
Qed.

Lemma delete_rows_upsert_fresh u s t :
  (forall r, In r t -> col_username r <> u) ->
  delete_rows u (upsert_row u s t) = t.
Proof.
  intro H. rewrite (upsert_row_fresh u s t H). unfold delete_rows.
  rewrite filter_app. simpl. rewrite str_eqb_refl. simpl.
  rewrite app_nil_r. now apply delete_rows_absent.
Qed.

Lemma replace_hyphen_fixed f :
  ~ In UNDERSCORE f -> replace UNDERSCORE (lit "-") f = f.
Proof.
  induction f as [|c f IH]; intro H; [reflexivity|]. simpl.
  destruct (N.eqb c UNDERSCORE) eqn:E.
  - apply N.eqb_eq in E. subst. exfalso. apply H. now left.
  - simpl. f_equal. apply IH. intro Hin. apply H. now right.
Qed.

(** A handle without an underscore is matched through its exact key only. *)
Lemma exact_matches_plain u t :
  ~ In UNDERSCORE (format_username P u) ->
  exact_matches_only P (format_username P u) t.
Proof.
  intros H r _. rewrite lookup_forms_again.
  rewrite (proj2 (replace_nil_fixed UNDERSCORE _) H), (replace_hyphen_fixed _ H).
  simpl. intuition congruence.
Qed.

Lemma row_matches_exact f t r :
  exact_matches_only P f t -> In r t ->
  row_matches (lookup_forms P f) r = str_eqb (col_username r) f.
Proof.
  intros H Hr. destruct (str_eqb (col_username r) f) eqn:E.
  - apply str_eqb_eq in E. apply row_matches_In. rewrite E. now left.
  - destruct (row_matches (lookup_forms P f) r) eqn:M; [|reflexivity].
    apply row_matches_In in M. apply (H r Hr) in M.
    apply str_eqb_neq in E. contradiction.
Qed.

Lemma exact_matches_upsert f s t :
  exact_matches_only P f t -> exact_matches_only P f (upsert_row f s t).
Proof.
  intros H r Hr Hm. apply upsert_row_In in Hr as [-> | Hr]; [reflexivity|].
  now apply H.
Qed.

Lemma exact_matches_delete f u t :
  exact_matches_only P f t -> exact_matches_only P f (delete_rows u t).
Proof. intros H r Hr Hm. apply delete_rows_In in Hr as [Hr _]. now apply H. Qed.

Lemma NoDup_usernames_upsert u s t :
  distinct_usernames t -> distinct_usernames (upsert_row u s t).
Proof.
  unfold distinct_usernames. intro H. rewrite usernames_upsert_row.
  destruct (existsb _ t) eqn:E; [exact H|].
  apply NoDup_app; [exact H | apply NoDup_cons; [intros [] | apply NoDup_nil] |].
  intros k Hk [<- | []]. unfold usernames in Hk.
  apply in_map_iff in Hk as (r & Hr & Hin).
  assert (Ht : existsb (fun r => str_eqb (col_username r) u) t = true).
  { apply existsb_exists. exists r. split; [exact Hin|]. now apply str_eqb_eq. }
  rewrite Ht in E. discriminate.
Qed.

Lemma NoDup_usernames_delete u t :
  distinct_usernames t -> distinct_usernames (delete_rows u t).
Proof.
  unfold distinct_usernames, usernames, delete_rows.
  induction t as [|r t IH]; simpl; intro H; [exact H|].
  inversion H as [|k ks Hnot Hrest]; subst.
  destruct (negb (str_eqb (col_username r) u)); simpl; [|now apply IH].
  apply NoDup_cons; [|now apply IH].
  intro Hin. apply Hnot. apply in_map_iff in Hin as (x & Hx & Hin).
  apply filter_In in Hin as [Hin _]. apply in_map_iff. eauto.
Qed.

Lemma rows_of_absent k t : ~ In k (usernames t) -> rows_of k t = [].
Proof.
  induction t as [|x t IH]; simpl; intro H; [reflexivity|].
  destruct (str_eqb (col_username x) k) eqn:E.
  - apply str_eqb_eq in E. exfalso. apply H. now left.
  - apply IH. intro Hin. apply H. now right.
Qed.

Lemma rows_of_upsert_row k s t :
  distinct_usernames t -> rows_of k (upsert_row k s t) = [Row k s].
Proof.
  unfold distinct_usernames.
  induction t as [|x t IH]; simpl; intro H.
  - now rewrite str_eqb_refl.
  - inversion H as [|y ys Hnot Hrest]; subst.
    destruct (str_eqb (col_username x) k) eqn:E; simpl.
    + rewrite str_eqb_refl. f_equal. apply rows_of_absent.
      apply str_eqb_eq in E. now rewrite <- E.
    + rewrite E. now apply IH.
Qed.

(** X4: a handle saved is a handle found.  With the database up, a table
    whose user names are distinct, and no row that matches the handle
    through another form than the exact key, after [save_verified_user u s]
    the table holds exactly one row under the normalised handle, with the
    service [s], and a lookup that follows, under any spelling with the same
    normal form, yields that row. *)
Theorem save_then_lookup (u u' s : str) (w : world) :
  healthy 2 w ->
  distinct_usernames (table w) ->
  format_username P u' = format_username P u ->
  exact_matches_only P (format_username P u) (table w) ->
  let w' := exec (save_verified_user P u s) w in
  rows_of (format_username P u) (table w') = [Row (format_username P u) s] /\
  result (get_verified_user P u') w' = Return (Some (Row (format_username P u) s)).
Proof.
  intros Hup Hdistinct Hsame Hexact w'. unfold w', exec, result.
  rewrite save_verified_user_run, (healthy_next 1 w Hup).
  cbn [snd table served]. split; [now apply rows_of_upsert_row|].
  rewrite get_verified_user_run. cbv zeta.
  rewrite (healthy_next 0 _ (healthy_served 1 _ _ w Hup)).
  cbn [fst table served]. rewrite Hsame. f_equal.
  rewrite (find_ext_in _ (fun r => str_eqb (col_username r) (format_username P u))).
  - apply find_key_upsert_row.
  - intros r Hr. apply (row_matches_exact _ (upsert_row (format_username P u) s (table w)));
      [now apply exact_matches_upsert | exact Hr].
Qed.

(** X5: of two writes for one handle the second wins.  With the database up
    and a table whose user names are distinct, after
    [save_verified_user u s1] and then [save_verified_user u s2] the table
    is what the second write alone would leave, it holds exactly one row
    under the normalised handle, that row carries [s2], and its user names
    are distinct still. *)
Theorem second_save_wins (u s1 s2 : str) (w : world) :
  healthy 2 w ->
  distinct_usernames (table w) ->
  let t2 := table (exec (save_verified_user P u s2)
                        (exec (save_verified_user P u s1) w)) in
  t2 = table (exec (save_verified_user P u s2) w) /\
  rows_of (format_username P u) t2 = [Row (format_username P u) s2] /\
  distinct_usernames t2.
Proof.
  intros Hup Hdistinct t2.
  assert (Ht2 : t2 = upsert_row (format_username P u) s2 (table w)).
  { unfold t2, exec.
    rewrite (save_verified_user_run u s1 w), (healthy_next 1 w Hup). cbn [snd].
    rewrite save_verified_user_run.
    rewrite (healthy_next 0 _ (healthy_served 1 _ _ w Hup)).
    cbn [snd table served]. apply upsert_row_twice. }
  split; [|split].
  - rewrite Ht2. unfold exec.
    now rewrite save_verified_user_run, (healthy_next 1 w Hup).
  - rewrite Ht2. now apply rows_of_upsert_row.
  - rewrite Ht2. now apply NoDup_usernames_upsert.
Qed.

(** X6: a handle deleted is a handle gone.  With the database up,
    [remove_verified_user u] drops exactly the rows whose user name is the
    normalised handle and keeps every other row; when no row matches the
    handle through another form than the exact key, a lookup that follows
    yields nothing. *)
Theorem delete_then_lookup (u u' : str) (w : world) :
  healthy 2 w ->
  format_username P u' = format_username P u ->
  let w' := exec (remove_verified_user P u) w in
  (forall r, In r (table w') <->
             In r (table w) /\ col_username r <> format_username P u) /\
  (exact_matches_only P (format_username P u) (table w) ->
   result (get_verified_user P u') w' = Return None).
Proof.
  intros Hup Hsame w'. unfold w', exec, result.
  rewrite remove_verified_user_run, (healthy_next 1 w Hup). cbn [snd].
  split.
  - intro r. cbn [table served]. apply delete_rows_In.
  - intro Hexact. rewrite get_verified_user_run. cbv zeta.
    rewrite (healthy_next 0 _ (healthy_served 1 _ _ w Hup)).
    cbn [fst table served]. rewrite Hsame. f_equal.
    fold (lookup_forms P (format_username P u)).
    destruct (find _ _) as [r|] eqn:F; [|reflexivity]. exfalso.
    apply find_some in F as [Hr Hm].
    rewrite (row_matches_exact _ (delete_rows (format_username P u) (table w)) r)
      in Hm; [| now apply exact_matches_delete | exact Hr].
    apply delete_rows_In in Hr as [_ Hne]. apply str_eqb_eq in Hm.
    contradiction.
Qed.

(** ** What one dispatch does *)

Lemma get_verified_user_frame u w :
  exists found w1,
    get_verified_user P u w = (Return found, w1) /\
    table w1 = table w /\ outbox w1 = outbox w.
Proof.
  rewrite get_verified_user_run. cbv zeta.
  destruct (next_fault w); eexists _, _; repeat split.
Qed.

Lemma save_verified_user_frame u s w :
  exists w1,
    save_verified_user P u s w = (Return tt, w1) /\ outbox w1 = outbox w /\
    (table w1 = table w \/ table w1 = upsert_row (format_username P u) s (table w)).
Proof.
  rewrite save_verified_user_run.
  destruct (next_fault w); eexists; repeat split; simpl; auto.
Qed.

Lemma remove_verified_user_frame u w :
  exists w1,
    remove_verified_user P u w = (Return tt, w1) /\ outbox w1 = outbox w /\
    (table w1 = table w \/ table w1 = delete_rows (format_username P u) (table w)).
Proof.
  rewrite remove_verified_user_run.
  destruct (next_fault w); eexists; repeat split; simpl; auto.
Qed.

Lemma check_found_step m u w :
  exists body w1,
    check_found P m u w
      = (Return tt, sent (Reply m body (Some (lit "MarkdownV2"))) w1) /\
    table w1 = table w /\ outbox w1 = outbox w.
Proof.
  destruct (get_verified_user_frame u w) as (found & w1 & Hrun & Ht & Ho).
  unfold check_found, bind. rewrite Hrun.
  eexists _, w1. split; [reflexivity|]. now split.
Qed.

Lemma check_verification_step m w :
  exists r w1,
    check_verification P m w = (Return tt, sent r w1) /\
    to r = m /\ table w1 = table w /\ outbox w1 = outbox w.
Proof.
  unfold check_verification, try_except.
  destruct (1 <? List.length (split (text m))) eqn:Hlen.
  - apply Nat.ltb_lt in Hlen.
    destruct (nth_error (split (text m)) 1) as [word|] eqn:Hword.
    + unfold getitem, bind. rewrite Hword. unfold ret.
      destruct (check_found_step m (strip word) w) as (b & w1 & Hrun & Ht & Ho).
      rewrite Hrun. eexists _, w1. repeat split; assumption.
    + apply nth_error_None in Hword. lia.
  - destruct (replied_username m) as [u|].
    + destruct (check_found_step m u w) as (b & w1 & Hrun & Ht & Ho).
      rewrite Hrun. eexists _, w1. repeat split; assumption.
    + eexists _, w. repeat split.
Qed.

Lemma length_3 {A} (l : list A) :
  (List.length l =? 3) = true -> exists a b c, l = [a; b; c].
Proof.
  destruct l as [|a [|b [|c [|d l]]]]; try discriminate. eauto.
Qed.

Lemma length_2 {A} (l : list A) :
  (List.length l =? 2) = true -> exists a b, l = [a; b].
Proof.
  destruct l as [|a [|b [|c l]]]; try discriminate. eauto.
Qed.

Lemma add_verified_step_raw OWNER m w :
  exists r w1,
    add_verified P OWNER m w = (Return tt, sent r w1) /\
    to r = m /\ outbox w1 = outbox w /\
    (table w1 = table w \/
     exists cmd u s,
       split_maxsplit 2 (text m) = [cmd; u; s] /\
       table w1 = upsert_row (format_username P (format_username P u)) s
                             (table w)).
Proof.
  destruct (is_authorized OWNER (from_user m)) eqn:Hauth.
  - apply is_authorized_iff in Hauth.
    destruct (List.length (split_maxsplit 2 (text m)) =? 3) eqn:Hlen.
    + destruct (length_3 _ Hlen) as (cmd & u & s & Hargs).
      rewrite (add_verified_owner_run OWNER m w cmd u s Hauth Hargs).
      unfold exec.
      destruct (save_verified_user_frame (format_username P u) s w)
        as (w1 & Hrun & Ho & Ht).
      rewrite Hrun. eexists _, w1. repeat split; [exact Ho|].
      destruct Ht as [Ht | Ht]; [now left | right].
      now exists cmd, u, s.
    + unfold add_verified, try_except.
      rewrite (is_authorized_owner _ _ Hauth), Hlen.
      eexists _, w. repeat split. now left.
  - unfold add_verified, try_except. rewrite Hauth.
    eexists _, w. repeat split. now left.
Qed.

Lemma add_verified_step OWNER m w :
  exists r w1,
    add_verified P OWNER m w = (Return tt, sent r w1) /\
    to r = m /\ outbox w1 = outbox w /\
    (table w1 = table w \/
     exists cmd u s,
       split_maxsplit 2 (text m) = [cmd; u; s] /\
       table w1 = upsert_row (format_username P u) s (table w)).
Proof.
  destruct (add_verified_step_raw OWNER m w) as (r & w1 & Hrun & Hto & Ho & Ht).
  exists r, w1. repeat split; try assumption.
  destruct Ht as [Ht | (cmd & u & s & Hargs & Ht)]; [now left | right].
  exists cmd, u, s. split; [exact Hargs|].
  rewrite Ht. f_equal.
  apply (format_username_word_idem 2 (text m) 1 u); [lia|].
  now rewrite Hargs.
Qed.

Lemma remove_verified_step OWNER m w :
  exists r w1,
    remove_verified P OWNER m w = (Return tt, sent r w1) /\
    to r = m /\ outbox w1 = outbox w /\
    (table w1 = table w \/
     exists cmd u,
       split (text m) = [cmd; u] /\
       table w1 = delete_rows (format_username P u) (table w)).
Proof.
  destruct (is_authorized OWNER (from_user m)) eqn:Hauth.
  - apply is_authorized_iff in Hauth.
    destruct (List.length (split (text m)) =? 2) eqn:Hlen.
    + destruct (length_2 _ Hlen) as (cmd & u & Hargs).
      destruct (get_verified_user_frame u w) as (found & w1 & Hrun & Ht & Ho).
      rewrite (remove_verified_owner_run OWNER m w cmd u found w1
                 Hauth Hargs Hrun).
      destruct found as [r|].
      * unfold exec.
        destruct (remove_verified_user_frame u w1) as (w2 & Hrun2 & Ho2 & Ht2).
        rewrite Hrun2. eexists _, w2. repeat split; [congruence|].
        destruct Ht2 as [Ht2 | Ht2]; [left; congruence | right].
        exists cmd, u. split; [exact Hargs | congruence].
      * eexists _, w1. repeat split; [exact Ho | now left].
    + unfold remove_verified, try_except.
      rewrite (is_authorized_owner _ _ Hauth), Hlen.
      eexists _, w. repeat split. now left.
  - unfold remove_verified, try_except. rewrite Hauth.
    eexists _, w. repeat split. now left.
Qed.

Lemma handler_step OWNER c m w :
  exists r w1,
    handler P OWNER c m w = (Return tt, sent r w1) /\
    to r = m /\ outbox w1 = outbox w /\
    table_change P (table w) (table w1).
Proof.
  destruct c; simpl.
  - destruct (check_verification_step m w) as (r & w1 & Hrun & Hto & Ht & Ho).
    exists r, w1. repeat split; try assumption. now left.
  - destruct (add_verified_step_raw OWNER m w)
      as (r & w1 & Hrun & Hto & Ho & Ht).
    exists r, w1. repeat split; try assumption.
    destruct Ht as [Ht | (cmd & u & s & Hargs & Ht)]; [now left|].
    right. left. exists u, s. split; [|exact Ht].
    refine (split_n_word_no_space 2 (text m) 1 u _ _); [lia|].
    unfold split_maxsplit in Hargs. now rewrite Hargs.
  - destruct (remove_verified_step OWNER m w) as (r & w1 & Hrun & Hto & Ho & Ht).
    exists r, w1. repeat split; try assumption.
    destruct Ht as [Ht | (cmd & u & Hargs & Ht)]; [now left|].
    right. right. now exists (format_username P u).
  - exists (Reply m (lit "Pong! Bot is working!") None), w.
    repeat split. now left.
Qed.

(** X8: no handler makes two rows share a user name: if the user names of
    the table are distinct before a dispatch, they are distinct after it. *)
Theorem handlers_keep_usernames_distinct
    (OWNER : Z) (c : command) (m : message) (w : world) :
  distinct_usernames (table w) ->
  distinct_usernames (table (exec (handler P OWNER c m) w)).
Proof.
  intro H.
  destruct (handler_step OWNER c m w) as (r & w1 & Hrun & _ & _ & Ht).
  unfold exec. rewrite Hrun. cbn [snd table sent].
  destruct Ht as [-> | [(u & s & _ & ->) | (k & ->)]].
  - exact H.
  - now apply NoDup_usernames_upsert.
  - now apply NoDup_usernames_delete.
Qed.

(** X9: the handlers store normalised keys only: if every user name in the
    table is a fixed point of [format_username] before a dispatch, the same
    holds after it. *)
Theorem handlers_keep_keys_normalised
    (OWNER : Z) (c : command) (m : message) (w : world) :
  stored_normalised P (table w) ->
  stored_normalised P (table (exec (handler P OWNER c m) w)).
Proof.
  intro H.
  destruct (handler_step OWNER c m w) as (r & w1 & Hrun & _ & _ & Ht).
  unfold exec. rewrite Hrun. cbn [snd table sent].
  unfold stored_normalised in *. rewrite Forall_forall in *.
  destruct Ht as [-> | [(u & s & Hu & ->) | (k & ->)]].
  - exact H.
  - intros x Hx. apply upsert_row_In in Hx as [-> | Hx]; [|now apply H].
    simpl. unfold normal_form. apply format_username_idem_no_space.
    now apply format_username_no_space.
  - intros x Hx. apply delete_rows_In in Hx as [Hx _]. now apply H.
Qed.

(** X10: [/check] only reads: whatever the message and the world, the table
    after [check_verification] is the table before it. *)
Theorem check_is_read_only (m : message) (w : world) :
  table (exec (check_verification P m) w) = table w.
Proof.
  destruct (check_verification_step m w) as (r & w1 & Hrun & _ & Ht & _).
  unfold exec. rewrite Hrun. exact Ht.
Qed.

(** X11: [/remove] adds no row and changes none, and a row it drops is one
    whose user name is the normal form of the handle the command names. *)
Theorem remove_only_drops_named (OWNER : Z) (m : message) (w : world) :
  let w' := exec (remove_verified P OWNER m) w in
  (forall r, In r (table w') -> In r (table w)) /\
  (forall r, In r (table w) -> ~ In r (table w') ->
             exists cmd u, split (text m) = [cmd; u] /\
                           col_username r = format_username P u).
Proof.
  destruct (remove_verified_step OWNER m w) as (r0 & w1 & Hrun & _ & _ & Ht).
  cbv zeta. unfold exec. rewrite Hrun. cbn [snd table sent].
  destruct Ht as [-> | (cmd & u & Hargs & ->)].
  - split; [tauto|]. intros r Hr Hn. contradiction.
  - split.
    + intros r Hr. now apply delete_rows_In in Hr.
    + intros r Hr Hn. exists cmd, u. split; [exact Hargs|].
      destruct (str_eqb (col_username r) (format_username P u)) eqn:E.
      * now apply str_eqb_eq.
      * exfalso. apply Hn. apply delete_rows_In. split; [exact Hr|].
        now apply str_eqb_neq.
Qed.

(** X12: [/add] loses no identity and touches one key only: every row of the
    table is still there afterwards unless its user name is the normal form
    of the handle the command names, in which case that key now carries the
    command's service text; and a row that is new is the row of that key. *)
Theorem add_only_touches_named (OWNER : Z) (m : message) (w : world) :
  let w' := exec (add_verified P OWNER m) w in
  (forall r, In r (table w) ->
             In r (table w') \/
             exists cmd u s,
               split_maxsplit 2 (text m) = [cmd; u; s] /\
               col_username r = format_username P u /\
               In (Row (format_username P u) s) (table w')) /\
  (forall r, In r (table w') ->
             In r (table w) \/
             exists cmd u s,
               split_maxsplit 2 (text m) = [cmd; u; s] /\
               r = Row (format_username P u) s).
Proof.
  destruct (add_verified_step OWNER m w) as (r0 & w1 & Hrun & _ & _ & Ht).
  cbv zeta. unfold exec. rewrite Hrun. cbn [snd table sent].
  destruct Ht as [-> | (cmd & u & s & Hargs & ->)].
  - split; intros r Hr; now left.
  - split; intros r Hr.
    + destruct (str_eqb (col_username r) (format_username P u)) eqn:E.
      * right. exists cmd, u, s. split; [exact Hargs|].
        split; [now apply str_eqb_eq | apply upsert_row_has].
      * left. apply upsert_row_keeps_others; [exact Hr | now apply str_eqb_neq].
    + apply upsert_row_In in Hr as [-> | Hr]; [right | now left].
      now exists cmd, u, s.
Qed.

(** X13: an owner's [/add] that does not split into exactly three items, and
    an owner's [/remove] that does not split into exactly two words, get the
    usage hint, and no store operation is made. *)
Theorem malformed_owner_command_gets_usage (OWNER : Z) (m : message) (w : world) :
  id (from_user m) = OWNER ->
  (List.length (split_maxsplit 2 (text m)) <> 3 ->
   only_replied (Reply m (lit "Usage: /add username - Service") None) w
                (exec (add_verified P OWNER m) w)) /\
  (List.length (split (text m)) <> 2 ->
   only_replied (Reply m (lit "Usage: /remove username") None) w
                (exec (remove_verified P OWNER m) w)).
Proof.
  intro Hid. split; intro Hlen; apply Nat.eqb_neq in Hlen.
  - unfold exec, add_verified, try_except.
    rewrite (is_authorized_owner _ _ Hid), Hlen. apply only_replied_sent.
  - unfold exec, remove_verified, try_except.
    rewrite (is_authorized_owner _ _ Hid), Hlen. apply only_replied_sent.
Qed.

(** ** Commands end to end *)

Lemma get_verified_user_same u1 u2 w :
  format_username P u1 = format_username P u2 ->
  get_verified_user P u1 w = get_verified_user P u2 w.
Proof. intro H. rewrite !get_verified_user_run. cbv zeta. now rewrite H. Qed.

(** X14: the answer to [/check] depends on the handle through its normal
    form only: two [/check] commands whose arguments normalise alike get, in
    the same world, replies with the same text, and leave the same world
    behind but for the message the reply is addressed to. *)
Theorem check_depends_on_normal_form
    (m1 m2 : message) (word1 word2 : str) (w : world) :
  nth_error (split (text m1)) 1 = Some word1 ->
  nth_error (split (text m2)) 1 = Some word2 ->
  format_username P word1 = format_username P word2 ->
  exists t w1,
    exec (check_verification P m1) w = sent (Reply m1 t (Some (lit "MarkdownV2"))) w1 /\
    exec (check_verification P m2) w = sent (Reply m2 t (Some (lit "MarkdownV2"))) w1.
Proof.
  intros H1 H2 Hsame.
  pose proof (strip_spaceless word1 (split_word_spaceless _ _ _ H1)) as S1.
  pose proof (strip_spaceless word2 (split_word_spaceless _ _ _ H2)) as S2.
  destruct (get_verified_user_frame (strip word1) w) as (found & w1 & Hrun & _).
  assert (Hrun2 : get_verified_user P (strip word2) w = (Return found, w1)).
  { rewrite <- Hrun. apply get_verified_user_same. now rewrite S1, S2. }
  unfold exec.
  rewrite (check_verification_arg_run m1 w word1 found w1 H1 Hrun),
          (check_verification_arg_run m2 w word2 found w1 H2 Hrun2).
  rewrite S1, S2, Hsame. eexists _, w1. split; reflexivity.
Qed.

(** *** Parsing [/add] *)

Lemma take_drop_word word rest :
  spaceless word -> (forall c rest', rest = c :: rest' -> isspace c = true) ->
  take_while notspace (word ++ rest) = word /\
  drop_while notspace (word ++ rest) = rest.
Proof.
  intros Hw Hr. induction word as [|c word IH]; simpl.
  - destruct rest as [|c rest']; [now split|].
    simpl. unfold notspace. rewrite (Hr c rest' eq_refl). now split.
  - assert (Hc : notspace c = true).
    { unfold notspace. now rewrite (Hw c (or_introl eq_refl)). }
    rewrite Hc.
    destruct IH as [IH1 IH2].
    { intros x Hx. apply Hw. now right. }
    now rewrite IH1, IH2.
Qed.

Lemma split_n_S_word k pre word rest :
  blank pre -> spaceless word -> word <> [] ->
  (forall c rest', rest = c :: rest' -> isspace c = true) ->
  split_n (S k) (pre ++ word ++ rest) = word :: split_n k rest.
Proof.
  intros Hpre Hw Hne Hr. rewrite split_n_S.
  rewrite drop_while_app, (blank_forallb pre Hpre).
  destruct word as [|c word]; [contradiction|].
  assert (Hd : drop_while isspace ((c :: word) ++ rest) = (c :: word) ++ rest).
  { simpl. now rewrite (Hw c (or_introl eq_refl)). }
  rewrite Hd.
  destruct (take_drop_word (c :: word) rest Hw Hr) as [E1 E2].
  cbn [app] in E1, E2 |- *. rewrite E2.
  f_equal. exact E1.
Qed.

Lemma blank_head sep rest :
  blank sep -> sep <> [] ->
  forall c rest', sep ++ rest = c :: rest' -> isspace c = true.
Proof.
  intros Hb Hne c rest' E. destruct sep as [|x sep]; [contradiction|].
  injection E as -> _. apply Hb. now left.
Qed.

(** The items of [/add]: a command word, a handle, and the service text with
    its inner and trailing whitespace, whatever whitespace separates them. *)
Lemma split_add_text pre cmd sep1 u sep2 c s :
  blank pre -> spaceless cmd -> cmd <> [] ->
  blank sep1 -> sep1 <> [] -> spaceless u -> u <> [] ->
  blank sep2 -> sep2 <> [] -> isspace c = false ->
  split_maxsplit 2 (pre ++ cmd ++ sep1 ++ u ++ sep2 ++ c :: s)
    = [cmd; u; c :: s].
Proof.
  intros Hpre Hcmd Ncmd Hs1 Ns1 Hu Nu Hs2 Ns2 Hc. unfold split_maxsplit.
  rewrite (split_n_S_word 1 pre cmd _ Hpre Hcmd Ncmd (blank_head _ _ Hs1 Ns1)).
  rewrite (split_n_S_word 0 sep1 u _ Hs1 Hu Nu (blank_head _ _ Hs2 Ns2)).
  cbn [split_n]. rewrite drop_while_app, (blank_forallb sep2 Hs2).
  cbn [drop_while]. now rewrite Hc.
Qed.

(** X15: the service text of [/add] is everything after the handle, inner
    and trailing whitespace included.  For a command word, a handle and a
    service text that starts with a visible character, separated by any
    whitespace, the owner's [/add] with the database up upserts the
    normalised handle with exactly that service text and confirms it. *)
Theorem add_stores_whole_service_text
    (OWNER : Z) (m : message) (w : world)
    (pre cmd sep1 u sep2 : str) (c : char) (s : str) :
  id (from_user m) = OWNER ->
  text m = pre ++ cmd ++ sep1 ++ u ++ sep2 ++ c :: s ->
  blank pre -> spaceless cmd -> cmd <> [] ->
  blank sep1 -> sep1 <> [] -> spaceless u -> u <> [] ->
  blank sep2 -> sep2 <> [] -> isspace c = false ->
  healthy 1 w ->
  let w' := exec (add_verified P OWNER m) w in
  table w' = upsert_row (format_username P u) (c :: s) (table w) /\
  In (Row (format_username P u) (c :: s)) (table w') /\
  outbox w' = outbox w ++
    [Reply m (format_username P u ++ lit " has been added as verified for "
                ++ c :: s ++ lit ".") None].
Proof.
  intros Hid Htext Hpre Hcmd Ncmd Hs1 Ns1 Hu Nu Hs2 Ns2 Hc Hup w'.
  assert (Hargs : split_maxsplit 2 (text m) = [cmd; u; c :: s]).
  { rewrite Htext. now apply split_add_text. }
  assert (Hw' : w' = sent (Reply m (format_username P u
                                      ++ lit " has been added as verified for "
                                      ++ c :: s ++ lit ".") None)
                          (served (Upsert (format_username P u) (c :: s))
                                  (upsert_row (format_username P u) (c :: s) (table w))
                                  w)).
  { unfold w', exec.
    rewrite (add_verified_owner_run OWNER m w cmd u (c :: s) Hid Hargs).
    unfold exec. rewrite save_verified_user_run, (healthy_next 0 w Hup).
    now rewrite (format_username_idem_no_space u Hu). }
  rewrite Hw'. cbn [table outbox sent served].
  split; [reflexivity|]. split; [apply upsert_row_has | reflexivity].
Qed.

(** *** [/remove] on a healthy database *)

Lemma find_exists {A} (p : A -> bool) l x :
  In x l -> p x = true -> exists y, find p l = Some y.
Proof.
  intros Hin Hp. destruct (find p l) as [y|] eqn:F; [eauto|].
  rewrite (find_none _ _ F x Hin) in Hp. discriminate.
Qed.

Lemma lookup_none_after_delete f t :
  exact_matches_only P f t ->
  find (row_matches (lookup_forms P f)) (delete_rows f t) = None.
Proof.
  intro Hexact. destruct (find _ _) as [r|] eqn:F; [|reflexivity]. exfalso.
  apply find_some in F as [Hr Hm].
  rewrite (row_matches_exact f (delete_rows f t) r) in Hm;
    [| now apply exact_matches_delete | exact Hr].
  apply delete_rows_In in Hr as [_ Hne]. apply str_eqb_eq in Hm. contradiction.
Qed.

Lemma remove_verified_healthy OWNER m w cmd u :
  id (from_user m) = OWNER ->
  split (text m) = [cmd; u] ->
  healthy 2 w ->
  let f := format_username P u in
  let q := lookup_keys P f in
  remove_verified P OWNER m w =
  (Return tt,
   match find (row_matches (lookup_forms P f)) (table w) with
   | Some _ =>
       sent (Reply m (u ++ lit " has been removed from verified users.") None)
            (served (Delete f) (delete_rows f (table w)) (served q (table w) w))
   | None =>
       sent (Reply m (u ++ lit " is not a verified user.") None)
            (served q (table w) w)
   end).
Proof.
  intros Hid Hargs Hup f q.
  pose proof (get_verified_user_run u w) as Hrun. cbv zeta in Hrun.
  rewrite (healthy_next 1 w Hup) in Hrun. fold f q in Hrun.
  rewrite (remove_verified_owner_run OWNER m w cmd u _ _ Hid Hargs Hrun).
  fold (lookup_forms P f).
  destruct (find (row_matches (lookup_forms P f)) (table w)); [|reflexivity].
  unfold exec. rewrite remove_verified_user_run.
  now rewrite (healthy_next 0 _ (healthy_served 1 q (table w) w Hup)).
Qed.

Lemma remove_verified_not_found OWNER m w cmd u :
  id (from_user m) = OWNER ->
  split (text m) = [cmd; u] ->
  healthy 1 w ->
  find (row_matches (lookup_forms P (format_username P u))) (table w) = None ->
  let f := format_username P u in
  remove_verified P OWNER m w =
  (Return tt,
   sent (Reply m (u ++ lit " is not a verified user.") None)
        (served (lookup_keys P f) (table w) w)).
Proof.
  intros Hid Hargs Hup Hnone f.
  pose proof (get_verified_user_run u w) as Hrun. cbv zeta in Hrun.
  rewrite (healthy_next 0 w Hup) in Hrun. fold f in Hrun.
  fold (lookup_forms P f) in Hrun. fold f in Hnone. rewrite Hnone in Hrun.
  now rewrite (remove_verified_owner_run OWNER m w cmd u _ _ Hid Hargs Hrun).
Qed.

Lemma serves_weaken n fs : serves (S n) fs -> serves n fs.
Proof.
  unfold serves. intros H e He. apply (H e). clear H.
  revert fs He. induction n as [|n IH]; intros fs He; [destruct He|].
  destruct fs as [|o fs]; [destruct He|].
  destruct He as [<- | He]; [now left | right; now apply IH].
Qed.

Lemma healthy_weaken n w : healthy (S n) w -> healthy n w.
Proof. apply serves_weaken. Qed.

(** X16: removing what was just added gives the old table back.  With the
    database up and no row under the handle's normal form, the owner's
    [/add] of a handle followed by the owner's [/remove] of it, under any
    spelling with the same normal form, leaves the table as it was, and both
    commands are confirmed. *)
Theorem add_then_remove_restores
    (OWNER : Z) (m_add m_rm : message) (w : world) (cmd u s cmd' u' : str) :
  id (from_user m_add) = OWNER ->
  id (from_user m_rm) = OWNER ->
  split_maxsplit 2 (text m_add) = [cmd; u; s] ->
  split (text m_rm) = [cmd'; u'] ->
  format_username P u' = format_username P u ->
  healthy 3 w ->
  (forall r, In r (table w) -> col_username r <> format_username P u) ->
  let w2 := exec (remove_verified P OWNER m_rm) (exec (add_verified P OWNER m_add) w) in
  table w2 = table w /\
  outbox w2 = outbox w ++
    [Reply m_add (format_username P u ++ lit " has been added as verified for "
                    ++ s ++ lit ".") None;
     Reply m_rm (u' ++ lit " has been removed from verified users.") None].
Proof.
  intros Hid Hid' Hargs Hargs' Hsame Hup Hfresh w2.
  set (f := format_username P u) in *.
  assert (Hnormal : format_username P f = f).
  { apply (format_username_word_idem 2 (text m_add) 1 u); [lia|].
    now rewrite Hargs. }
  set (w1 := exec (add_verified P OWNER m_add) w) in *.
  assert (Hw1 : w1 = sent (Reply m_add (f ++ lit " has been added as verified for "
                                          ++ s ++ lit ".") None)
                          (served (Upsert f s) (table w ++ [Row f s]) w)).
  { unfold w1, exec.
    rewrite (add_verified_owner_run OWNER m_add w cmd u s Hid Hargs).
    unfold exec. fold f.
    rewrite save_verified_user_run, (healthy_next 2 w Hup), Hnormal.
    now rewrite (upsert_row_fresh f s (table w) Hfresh). }
  assert (Hup1 : healthy 2 w1).
  { rewrite Hw1. apply healthy_sent. now apply healthy_served. }
  unfold w2, exec.
  rewrite (remove_verified_healthy OWNER m_rm w1 cmd' u' Hid' Hargs' Hup1).
  cbv zeta. rewrite Hsame. fold f.
  destruct (find_exists (row_matches (lookup_forms P f)) (table w1) (Row f s))
    as (y & Hy).
  { rewrite Hw1. cbn [table sent served]. apply in_or_app. right. now left. }
  { apply row_matches_In. now left. }
  rewrite Hy. cbn [snd table outbox sent served]. rewrite Hw1.
  cbn [table outbox sent served]. split.
  - rewrite <- (upsert_row_fresh f s (table w) Hfresh).
    now apply delete_rows_upsert_fresh.
  - now rewrite <- app_assoc.
Qed.

(** X17: a second [/remove] finds nothing.  With the database up, and when
    no row matches the handle through another form than the exact key, after
    the owner's [/remove] of a handle no row carries its normal form, and the
    same command once more is answered that the handle is not a verified
    user and leaves the table as it is. *)
Theorem second_remove_finds_nothing
    (OWNER : Z) (m : message) (w : world) (cmd u : str) :
  id (from_user m) = OWNER ->
  split (text m) = [cmd; u] ->
  healthy 3 w ->
  exact_matches_only P (format_username P u) (table w) ->
  let w1 := exec (remove_verified P OWNER m) w in
  let w2 := exec (remove_verified P OWNER m) w1 in
  (forall r, In r (table w1) -> col_username r <> format_username P u) /\
  table w2 = table w1 /\
  outbox w2 = outbox w1 ++ [Reply m (u ++ lit " is not a verified user.") None].
Proof.
  intros Hid Hargs Hup Hexact w1 w2.
  set (f := format_username P u) in *.
  pose proof (healthy_weaken 2 w Hup) as Hup2.
  pose proof (remove_verified_healthy OWNER m w cmd u Hid Hargs Hup2) as Hrun.
  cbv zeta in Hrun. fold f in Hrun.
  assert (Hfind1 : find (row_matches (lookup_forms P f)) (table w1) = None /\
                   healthy 1 w1 /\
                   forall r, In r (table w1) -> col_username r <> f).
  { unfold w1, exec. rewrite Hrun.
    destruct (find (row_matches (lookup_forms P f)) (table w)) as [r|] eqn:F;
      cbn [snd table sent served].
    - split; [now apply lookup_none_after_delete|]. split.
      + apply healthy_sent. apply healthy_served. now apply healthy_served.
      + intros x Hx. now apply delete_rows_In in Hx.
    - split; [exact F|]. split.
      + apply healthy_sent. now apply healthy_served.
      + intros x Hx E. pose proof (find_none _ _ F x Hx) as Hn.
        assert (Hm : row_matches (lookup_forms P f) x = true).
        { apply row_matches_In. rewrite E. now left. }
        rewrite Hm in Hn. discriminate. }
  destruct Hfind1 as (Hnone & Hup1 & Habsent).
  split; [exact Habsent|].
  unfold w2, exec.
  rewrite (remove_verified_not_found OWNER m w1 cmd u Hid Hargs Hup1 Hnone).
  cbn [snd table outbox sent served].
  split; reflexivity.
Qed.

(** X19: the green mark means a match.  With the database up, the reply to a
    [/check] with an argument starts with the star and the green circle
    exactly when some row of the table carries one of the four forms of the
    handle as its user name; otherwise it starts with the star and the red
    circle. *)
Theorem check_marks_green_iff_matched (m : message) (w : world) (word : str) :
  nth_error (split (text m)) 1 = Some word ->
  healthy 1 w ->
  exists t,
    outbox (exec (check_verification P m) w)
      = outbox w ++ [Reply m t (Some (lit "MarkdownV2"))] /\
    (starts_with (lit "*" ++ GREEN_CIRCLE) t = true <->
     exists r, In r (table w) /\
               In (col_username r) (lookup_forms P (format_username P word))) /\
    (starts_with (lit "*" ++ GREEN_CIRCLE) t = false ->
     starts_with (lit "*" ++ RED_CIRCLE) t = true).
Proof.
  intros Hword Hup.
  pose proof (strip_spaceless word (split_word_spaceless _ _ _ Hword)) as Hs.
  pose proof (get_verified_user_run word w) as Hrun. cbv zeta in Hrun.
  rewrite (healthy_next 0 w Hup) in Hrun.
  fold (lookup_forms P (format_username P word)) in Hrun.
  rewrite <- Hs in Hrun at 1.
  unfold exec.
  rewrite (check_verification_arg_run m w word _ _ Hword Hrun).
  eexists. split; [reflexivity|].
  destruct (find (row_matches (lookup_forms P (format_username P word))) (table w))
    as [r|] eqn:F.
  - split; [|discriminate]. split; [|reflexivity]. intros _.
    apply find_some in F as [Hr Hm]. exists r. split; [exact Hr|].
    now apply row_matches_In.
  - split; [|reflexivity]. split; [discriminate|].
    intros (r & Hr & Hm). apply row_matches_In in Hm.
    rewrite (find_none _ _ F r Hr) in Hm. discriminate.
Qed.

End Properties.

(** * The casing of the letters A-Z and a-z has the laws *)

Lemma isspace_visible c : (33 <= c)%N -> (c < 133)%N -> isspace c = false.
Proof.
  intros Hlo Hhi. unfold isspace, between.
  rewrite (proj2 (N.leb_gt c 13)) by lia.
  rewrite (proj2 (N.leb_gt c 32)) by lia.
  rewrite (proj2 (N.leb_gt 8192 c)) by lia.
  rewrite !andb_false_r. cbn [andb orb].
  repeat match goal with
         | |- context [N.eqb c ?k] => rewrite (proj2 (N.eqb_neq c k)) by lia
         end.
  reflexivity.
Qed.

Lemma lower_ascii_cases c :
  (between 65 90 c = true /\ lower_ascii c = (c + 32)%N /\
   (65 <= c)%N /\ (c <= 90)%N) \/
  (between 65 90 c = false /\ lower_ascii c = c).
Proof.
  unfold lower_ascii. destruct (between 65 90 c) eqn:E; [left | right; auto].
  unfold between in E. apply andb_true_iff in E as [E1 E2].
  apply N.leb_le in E1, E2. auto.
Qed.

Lemma ascii_lower_stable : lower_stable ascii_casing.
Proof.
  exists (fun c => negb (between 65 90 c)). split; [reflexivity|]. split.
  - intros s c Hc. cbn [lower ascii_casing] in Hc.
    apply in_map_iff in Hc as (c' & <- & _).
    destruct (lower_ascii_cases c') as [(_ & -> & Hlo & Hhi) | (E & ->)].
    + unfold between. rewrite (proj2 (N.leb_gt (c' + 32) 90)) by lia.
      now rewrite andb_false_r.
    + now rewrite E.
  - intros s H. cbn [lower ascii_casing].
    induction s as [|c s IH]; [reflexivity|]. simpl. f_equal.
    + unfold lower_ascii. specialize (H c (or_introl eq_refl)).
      now destruct (between 65 90 c).
    + apply IH. intros x Hx. apply H. now right.
Qed.

Lemma ascii_lower_keeps_spaceless : lower_keeps_spaceless ascii_casing.
Proof.
  intros s Hs c Hc. cbn [lower ascii_casing] in Hc.
  apply in_map_iff in Hc as (c' & <- & Hc').
  destruct (lower_ascii_cases c') as [(_ & -> & Hlo & Hhi) | (_ & ->)].
  - apply isspace_visible; lia.
  - now apply Hs.
Qed.

Lemma ascii_casing_ascii_cased : ascii_cased ascii_casing.
Proof. intros s _. split; reflexivity. Qed.

(** * The theorems at work *)

Lemma format_username_vs_spec_witness :
  format_username ascii_casing (lit " @Foo ") = normalize_spec ascii_casing (lit " @Foo ").
Proof.
  apply (proj2 (proj2 (format_username_vs_spec ascii_casing (lit " @Foo ")))).
  vm_compute. intuition discriminate.
Defined.


Lemma non_owner_is_refused_witness :
  outbox (exec (add_verified ascii_casing 7 (Message guest9 (lit "/add @bob Escrow") None))
               foobar_world)
    = [Reply (Message guest9 (lit "/add @bob Escrow") None) not_authorized None]
  /\ table (exec (remove_verified ascii_casing 7 (Message guest9 (lit "/remove foobar") None))
                 foobar_world)
    = table foobar_world.
Proof.
  split.
  - apply (non_owner_is_refused ascii_casing 7 (Message guest9 (lit "/add @bob Escrow") None)
             foobar_world).
    simpl. lia.
  - apply (non_owner_is_refused ascii_casing 7 (Message guest9 (lit "/remove foobar") None)
             foobar_world).
    simpl. lia.
Defined.

Lemma check_without_target_witness :
  only_replied (Reply bare_check check_usage None) foobar_world
               (exec (check_verification ascii_casing bare_check) foobar_world).
Proof.
  apply (check_without_target ascii_casing bare_check foobar_world).
  - vm_compute. lia.
  - reflexivity.
Defined.

Lemma remove_verified_by_owner_witness :
  table (exec (remove_verified ascii_casing 7 (Message owner7 (lit "/remove FooBar") None))
              foobar_world) = [].
Proof.
  pose proof (remove_verified_by_owner ascii_casing 7
                (Message owner7 (lit "/remove FooBar") None) foobar_world
                (lit "/remove") (lit "FooBar")
                (Some (Row (lit "@foobar") (lit "Escrow")))
                (exec (get_verified_user ascii_casing (lit "FooBar")) foobar_world)
                eq_refl eq_refl eq_refl) as [_ [Hrun _]].
  unfold exec at 1. rewrite Hrun. reflexivity.
Defined.

Lemma store_failure_is_swallowed_witness :
  add_verified ascii_casing 7 add_bob down_world =
    (Return tt,
     sent (Reply add_bob
             (lit "@bob has been added as verified for EscrowService.") None)
          (refused (lit "Error saving user: connection refused") down_world)).
Proof.
  apply (proj1 (store_failure_is_swallowed ascii_casing 7 down_world
                  (lit "connection refused") eq_refl)
           add_bob (lit "/add") (lit "@bob") (lit "EscrowService")
           eq_refl eq_refl).
Defined.

Lemma get_verified_user_lookup_witness :
  result (get_verified_user ascii_casing (lit "Foo_Bar")) foobar_world
    = Return (Some (Row (lit "@foobar") (lit "Escrow"))) /\
  result (get_verified_user ascii_casing (lit "nobody")) foobar_world = Return None.
Proof.
  split.
  - destruct (get_verified_user_lookup ascii_casing ascii_lower_stable (lit "Foo_Bar") foobar_world)
      as (found & w' & Hrun & _).
    unfold result. rewrite Hrun. simpl.
    vm_compute in Hrun. now injection Hrun as <- _.
  - destruct (get_verified_user_lookup ascii_casing ascii_lower_stable (lit "nobody") foobar_world)
      as (found & w' & Hrun & _).
    unfold result. rewrite Hrun. simpl.
    vm_compute in Hrun. now injection Hrun as <- _.
Defined.

Lemma add_then_check_bob_witness :
  table (exec (add_verified ascii_casing 7 add_bob) foobar_world)
    = [Row (lit "@foobar") (lit "Escrow"); Row (lit "@bob") (lit "EscrowService")].
Proof.
  apply (add_then_check_bob ascii_casing ascii_casing_ascii_cased 7 foobar_world add_bob check_bob
           eq_refl eq_refl eq_refl eq_refl).
  intros r [<- | []]. discriminate.
Defined.

Lemma escape_markdown_injective_witness :
  lit "a_b" = lit "a_b".
Proof. apply (escape_markdown_injective (lit "a_b") (lit "a_b")). reflexivity. Defined.

Lemma escape_markdown_length_witness :
  escape_markdown (lit "@BOB") = lit "@BOB".
Proof. apply (proj2 (escape_markdown_length (lit "@BOB"))). reflexivity. Defined.

Lemma save_then_lookup_witness :
  result (get_verified_user ascii_casing (lit " ALICE "))
         (exec (save_verified_user ascii_casing (lit "@alice") (lit "EscrowX"))
               foobar_world)
    = Return (Some (Row (lit "@alice") (lit "EscrowX"))).
Proof.
  apply (save_then_lookup ascii_casing (lit "@alice") (lit " ALICE ")
           (lit "EscrowX") foobar_world).
  - intros e H. destruct H.
  - unfold distinct_usernames. simpl.
    apply NoDup_cons; [intros [] | apply NoDup_nil].
  - reflexivity.
  - apply (exact_matches_plain ascii_casing ascii_lower_stable).
    vm_compute. intuition discriminate.
Defined.

Lemma second_save_wins_witness :
  rows_of (lit "@foobar")
          (table (exec (save_verified_user ascii_casing (lit "FooBar") (lit "B"))
                       (exec (save_verified_user ascii_casing (lit "FooBar") (lit "A"))
                             foobar_world)))
    = [Row (lit "@foobar") (lit "B")].
Proof.
  apply (second_save_wins ascii_casing (lit "FooBar") (lit "A") (lit "B")
           foobar_world).
  - intros e H. destruct H.
  - unfold distinct_usernames. simpl.
    apply NoDup_cons; [intros [] | apply NoDup_nil].
Defined.

Lemma delete_then_lookup_witness :
  result (get_verified_user ascii_casing (lit "@FooBar"))
         (exec (remove_verified_user ascii_casing (lit "foobar")) foobar_world)
    = Return None.
Proof.
  apply (delete_then_lookup ascii_casing (lit "foobar") (lit "@FooBar") foobar_world).
  - intros e H. destruct H.
  - reflexivity.
  - apply (exact_matches_plain ascii_casing ascii_lower_stable). vm_compute. intuition discriminate.
Defined.

Lemma handlers_keep_usernames_distinct_witness :
  distinct_usernames
    (table (exec (handler ascii_casing 7 Add (Message owner7 (lit "/add Foo_Bar Escrow two") None))
                 foobar_world)).
Proof.
  apply (handlers_keep_usernames_distinct ascii_casing 7 Add
           (Message owner7 (lit "/add Foo_Bar Escrow two") None) foobar_world).
  unfold distinct_usernames. simpl.
  apply NoDup_cons; [intros [] | apply NoDup_nil].
Defined.

Lemma handlers_keep_keys_normalised_witness :
  stored_normalised ascii_casing
    (table (exec (handler ascii_casing 7 Add (Message owner7 (lit "/add Foo_Bar Escrow two") None))
                 foobar_world)).
Proof.
  apply (handlers_keep_keys_normalised ascii_casing ascii_lower_stable ascii_lower_keeps_spaceless 7 Add
           (Message owner7 (lit "/add Foo_Bar Escrow two") None) foobar_world).
  unfold stored_normalised. simpl.
  apply Forall_cons; [reflexivity | apply Forall_nil].
Defined.

Lemma malformed_owner_command_gets_usage_witness :
  only_replied (Reply (Message owner7 (lit "/add @bob") None)
                      (lit "Usage: /add username - Service") None)
               foobar_world
               (exec (add_verified ascii_casing 7 (Message owner7 (lit "/add @bob") None))
                     foobar_world) /\
  only_replied (Reply (Message owner7 (lit "/remove a b") None)
                      (lit "Usage: /remove username") None)
               foobar_world
               (exec (remove_verified ascii_casing 7 (Message owner7 (lit "/remove a b") None))
                     foobar_world).
Proof.
  split.
  - apply (proj1 (malformed_owner_command_gets_usage ascii_casing 7
                    (Message owner7 (lit "/add @bob") None) foobar_world eq_refl)).
    vm_compute. lia.
  - apply (proj2 (malformed_owner_command_gets_usage ascii_casing 7
                    (Message owner7 (lit "/remove a b") None) foobar_world eq_refl)).
    vm_compute. lia.
Defined.

Lemma check_depends_on_normal_form_witness :
  map body (outbox (exec (check_verification ascii_casing
                            (Message guest9 (lit "/check @FooBar") None))
                         foobar_world))
  = map body (outbox (exec (check_verification ascii_casing
                              (Message owner7 (lit "/check  foobar ") None))
                           foobar_world)).
Proof.
  destruct (check_depends_on_normal_form ascii_casing
              (Message guest9 (lit "/check @FooBar") None)
              (Message owner7 (lit "/check  foobar ") None)
              (lit "@FooBar") (lit "foobar") foobar_world
              eq_refl eq_refl eq_refl) as (t & w1 & E1 & E2).
  rewrite E1, E2. simpl. now rewrite !map_app.
Defined.

Lemma add_stores_whole_service_text_witness :
  table (exec (add_verified ascii_casing 7 (Message owner7 (lit " /add  @Bob " ++ NL ++ lit "Escrow  Service ") None))
              empty_world)
    = [Row (lit "@bob") (lit "Escrow  Service ")].
Proof.
  apply (add_stores_whole_service_text ascii_casing ascii_lower_stable ascii_lower_keeps_spaceless 7
           (Message owner7 (lit " /add  @Bob " ++ NL ++ lit "Escrow  Service ") None)
           empty_world
           (lit " ") (lit "/add") (lit "  ") (lit "@Bob") (lit " " ++ NL)
           (ch "E") (lit "scrow  Service ") eq_refl eq_refl);
    try discriminate; try reflexivity;
    try (intros x Hx; vm_compute in Hx;
         repeat (destruct Hx as [<- | Hx]; [reflexivity|]); destruct Hx).
Defined.

Lemma add_then_remove_restores_witness :
  table (exec (remove_verified ascii_casing 7 (Message owner7 (lit "/remove BOB") None))
              (exec (add_verified ascii_casing 7 add_bob) foobar_world))
    = table foobar_world.
Proof.
  apply (add_then_remove_restores ascii_casing ascii_lower_stable ascii_lower_keeps_spaceless 7 add_bob
           (Message owner7 (lit "/remove BOB") None) foobar_world
           (lit "/add") (lit "@bob") (lit "EscrowService")
           (lit "/remove") (lit "BOB")
           eq_refl eq_refl eq_refl eq_refl eq_refl).
  - intros e H. destruct H.
  - intros r [<- | []]. discriminate.
Defined.

Lemma second_remove_finds_nothing_witness :
  map (fun r => show (body r))
      (outbox (exec (remove_verified ascii_casing 7 (Message owner7 (lit "/remove FooBar") None))
                    (exec (remove_verified ascii_casing 7 (Message owner7 (lit "/remove FooBar") None))
                          foobar_world)))
    = ["FooBar has been removed from verified users."%string;
       "FooBar is not a verified user."%string].
Proof.
  destruct (second_remove_finds_nothing ascii_casing 7
              (Message owner7 (lit "/remove FooBar") None) foobar_world
              (lit "/remove") (lit "FooBar") eq_refl eq_refl) as (_ & _ & Ho).
  - intros e H. destruct H.
  - apply (exact_matches_plain ascii_casing ascii_lower_stable). vm_compute. intuition discriminate.
  - rewrite Ho. reflexivity.
Defined.

Lemma check_marks_green_iff_matched_witness :
  exists t,
    outbox (exec (check_verification ascii_casing (Message guest9 (lit "/check Foo-Bar") None))
                 (World [Row (lit "@foo-bar") (lit "X")] [] [] [] []))
      = [Reply (Message guest9 (lit "/check Foo-Bar") None) t
               (Some (lit "MarkdownV2"))] /\
    starts_with (lit "*" ++ GREEN_CIRCLE) t = true.
Proof.
  destruct (check_marks_green_iff_matched ascii_casing
              (Message guest9 (lit "/check Foo-Bar") None)
              (World [Row (lit "@foo-bar") (lit "X")] [] [] [] [])
              (lit "Foo-Bar") eq_refl) as (t & Ho & Hiff & _).
  - intros e H. destruct H.
  - exists t. split; [exact Ho|]. apply Hiff.
    exists (Row (lit "@foo-bar") (lit "X")). split; [now left|]. now left.
Defined.

Lemma remove_only_drops_named_witness :
  exists cmd u,
    split (lit "/remove FooBar") = [cmd; u] /\
    lit "@foobar" = format_username ascii_casing u.
Proof.
  apply (proj2 (remove_only_drops_named ascii_casing 7
                  (Message owner7 (lit "/remove FooBar") None) foobar_world)
           (Row (lit "@foobar") (lit "Escrow"))).
  - now left.
  - intros [].
Defined.

Lemma add_only_touches_named_witness :
  In (Row (lit "@foobar") (lit "Escrow"))
     (table (exec (add_verified ascii_casing 7 add_bob) foobar_world)).
Proof.
  destruct (proj1 (add_only_touches_named ascii_casing ascii_lower_stable ascii_lower_keeps_spaceless 7 add_bob foobar_world)
              (Row (lit "@foobar") (lit "Escrow")) (or_introl eq_refl))
    as [H | (cmd & u & s & Hargs & Hkey & _)].
  - exact H.
  - exfalso. vm_compute in Hargs. injection Hargs as _ <- _.
    vm_compute in Hkey. discriminate.
Defined.

Lemma remove_confirms_but_keeps_row_witness :
  exists (w : world) (m : message) (r : row),
    id (from_user m) = 7%Z /\
    In r (table w) /\
    In r (table (exec (remove_verified ascii_casing 7 m) w)).
Proof.
  destruct (remove_confirms_but_keeps_row ascii_casing ascii_casing_ascii_cased 7)
    as (w & m & r & Hid & _ & Hin & _ & _ & _ & _ & _ & Hstill).
  exists w, m, r. repeat split; assumption.
Defined.
